(** * ProjectSelector: the project lifecycle coordinator of the AutoForge UI

    A shallow embedding of [ui/src/components/ProjectSelector.tsx].

    The React component is modelled as it is written:
    - its five [useState] cells are the record [State];
    - its props are the record [Props]; callback props are effects;
    - every event handler is a small program ([Prog]) built from the values
      the handler closes over, that is the props and the state of the render
      in which the handler was created;
    - an [async] handler is a program that stops at its [await]: the
      continuation (the rest of the [try] block and the [catch] block) is
      stored with the call in flight and runs when the call settles, still
      with the values it closed over;
    - the JSX is the function [render], and the user's possible actions are
      read off the rendered view. *)

From Stdlib Require Import String List Bool Arith ZArith Lia.
Import ListNotations.
Open Scope string_scope.
Open Scope list_scope.

(** ** Data *)

(** [ProjectSummary] of [lib/types], with the fields this component reads. *)
Record ProjectStats := mkStats { total : Z; passing : Z; percentage : Z }.

Record ProjectSummary := mkProject {
  name : string;
  path : string;
  is_detached : bool;
  stats : ProjectStats
}.

(** The three lifecycle actions that go through a confirmation dialog. *)
Inductive ActionKind := Delete | Detach | Reattach.

Definition kind_eqb (a b : ActionKind) : bool :=
  match a, b with
  | Delete, Delete | Detach, Detach | Reattach, Reattach => true
  | _, _ => false
  end.

(** A value of type [string | null]. *)
Definition Nullable := option string.

(** JavaScript truthiness of a [string | null]: [null] and the empty string
    are falsy, every other string is truthy. *)
Definition truthy (v : Nullable) : bool :=
  match v with
  | None => false
  | Some s => negb (s =? EmptyString)
  end.

(** [a === b] on [string | null]. *)
Definition strict_eq (a b : Nullable) : bool :=
  match a, b with
  | None, None => true
  | Some x, Some y => x =? y
  | _, _ => false
  end.

(** [v !== null]. *)
Definition not_null (v : Nullable) : bool :=
  match v with
  | None => false
  | Some _ => true
  end.

(** The props of the component that are values. *)
Record Props := mkProps {
  projects : list ProjectSummary;
  selectedProject : Nullable;
  isLoading : bool
}.

(** The [useState] cells, in the order of the source. *)
Record State := mkState {
  isOpen : bool;
  showNewProjectModal : bool;
  projectToDelete : Nullable;
  projectToDetach : Nullable;
  projectToReattach : Nullable
}.

Definition initialState : State := mkState false false None None None.

(** ** Effects and handler programs *)

(** What a handler can do: call a state setter, call a callback prop, log to
    the console, or act on the mouse event it received. *)
Inductive Effect :=
| setIsOpen (b : bool)
| setShowNewProjectModal (b : bool)
| setProjectToDelete (v : Nullable)
| setProjectToDetach (v : Nullable)
| setProjectToReattach (v : Nullable)
| onSelectProject (v : Nullable)
| onSpecCreatingChange (b : bool)
| console_error (msg : string) (error : string)
| stopPropagation
| preventDefault.

(** A handler body.  [AwaitMutate k arg onFulfilled onRejected] is
    [try { await m.mutateAsync(arg); onFulfilled } catch (error) { onRejected error }]
    for the mutation [m] of kind [k]. *)
Inductive Prog :=
| Return
| Do (e : Effect) (rest : Prog)
| AwaitMutate (k : ActionKind) (arg : string)
              (onFulfilled : Prog) (onRejected : string -> Prog).

Notation "e ;; p" := (Do e p) (at level 61, right associativity).

(** *** The handlers of the component *)

Definition handleProjectCreated (projectName : string) : Prog :=
  onSelectProject (Some projectName) ;;
  setIsOpen false ;;
  Return.

Definition handleDeleteClick (projectName : string) : Prog :=
  stopPropagation ;;
  preventDefault ;;
  setProjectToDelete (Some projectName) ;;
  Return.

Definition handleConfirmDelete (P : Props) (S : State) : Prog :=
  if negb (truthy (projectToDelete S)) then Return
  else
    match projectToDelete S with
    | None => Return
    | Some target =>
        AwaitMutate Delete target
          (if strict_eq (selectedProject P) (projectToDelete S)
           then onSelectProject None ;; setProjectToDelete None ;; Return
           else setProjectToDelete None ;; Return)
          (fun error =>
             console_error "Failed to delete project:" error ;;
             setProjectToDelete None ;;
             Return)
    end.

Definition handleCancelDelete : Prog :=
  setProjectToDelete None ;;
  Return.

Definition handleDetachClick (projectName : string) : Prog :=
  stopPropagation ;;
  preventDefault ;;
  setProjectToDetach (Some projectName) ;;
  Return.

Definition handleReattachClick (projectName : string) : Prog :=
  stopPropagation ;;
  preventDefault ;;
  setProjectToReattach (Some projectName) ;;
  Return.

Definition handleConfirmDetach (S : State) : Prog :=
  if negb (truthy (projectToDetach S)) then Return
  else
    match projectToDetach S with
    | None => Return
    | Some target =>
        AwaitMutate Detach target
          (setProjectToDetach None ;; Return)
          (fun error =>
             console_error "Failed to detach project:" error ;;
             setProjectToDetach None ;;
             Return)
    end.

Definition handleConfirmReattach (S : State) : Prog :=
  if negb (truthy (projectToReattach S)) then Return
  else
    match projectToReattach S with
    | None => Return
    | Some target =>
        AwaitMutate Reattach target
          (setProjectToReattach None ;; Return)
          (fun error =>
             console_error "Failed to reattach project:" error ;;
             setProjectToReattach None ;;
             Return)
    end.

(** The inline handlers of the JSX. *)

(** [onSelect] of a project row. *)
Definition onSelectRow (project : ProjectSummary) : Prog :=
  onSelectProject (Some (name project)) ;;
  Return.

(** [onSelect] of the "New Project" item. *)
Definition onSelectNewProject : Prog :=
  setShowNewProjectModal true ;;
  Return.

(** [onClose] and [onStepChange] of the new-project modal. *)
Definition onCloseModal : Prog :=
  setShowNewProjectModal false ;;
  Return.

Definition onStepChange (step : string) : Prog :=
  onSpecCreatingChange (step =? "chat") ;;
  Return.

(** [onCancel] of the detach and of the reattach dialog. *)
Definition onCancelDetach : Prog :=
  setProjectToDetach None ;;
  Return.

Definition onCancelReattach : Prog :=
  setProjectToReattach None ;;
  Return.

(** The three flows by kind: the click on a row's action icon (open), the
    dialog's cancel and the dialog's confirm. *)
Definition handleClick (k : ActionKind) : string -> Prog :=
  match k with
  | Delete => handleDeleteClick
  | Detach => handleDetachClick
  | Reattach => handleReattachClick
  end.

Definition handleCancel (k : ActionKind) : Prog :=
  match k with
  | Delete => handleCancelDelete
  | Detach => onCancelDetach
  | Reattach => onCancelReattach
  end.

Definition handleConfirm (k : ActionKind) (P : Props) (S : State) : Prog :=
  match k with
  | Delete => handleConfirmDelete P S
  | Detach => handleConfirmDetach S
  | Reattach => handleConfirmReattach S
  end.

(** The pending target of a kind. *)
Definition pending (k : ActionKind) (S : State) : Nullable :=
  match k with
  | Delete => projectToDelete S
  | Detach => projectToDetach S
  | Reattach => projectToReattach S
  end.

(** ** The world around the handlers *)

(** A mouse event, as far as the handlers use it. *)
Record MouseEvent := mkMouseEvent {
  propagationStopped : bool;
  defaultPrevented : bool
}.

Definition newMouseEvent : MouseEvent := mkMouseEvent false false.

(** How a mutation call settles. *)
Inductive Outcome := Fulfilled | Rejected (error : string).

(** A mutation call in flight, with the continuation of the handler that
    awaits it. *)
Record Task := mkTask {
  task_id : nat;
  task_kind : ActionKind;
  task_arg : string;
  task_then : Prog;
  task_catch : string -> Prog
}.

(** Everything a handler can read or change: the props handed down by the
    caller, the component's state, the mutation calls in flight, and the logs
    of what went out: the mutation calls, the console errors, and the calls of
    the optional [onSpecCreatingChange]. *)
Record World := mkWorld {
  props : Props;
  st : State;
  inflight : list Task;
  next_id : nat;
  calls : list (ActionKind * string);
  console : list (string * string);
  specCreating : list bool
}.

Definition initialWorld (P : Props) : World :=
  mkWorld P initialState [] 0 [] [] [].

Definition with_st (f : State -> State) (w : World) : World :=
  mkWorld (props w) (f (st w)) (inflight w) (next_id w) (calls w)
          (console w) (specCreating w).

Definition with_props (P : Props) (w : World) : World :=
  mkWorld P (st w) (inflight w) (next_id w) (calls w)
          (console w) (specCreating w).

(** Modelled from the spec: the caller's [onSelectProject] callback, which is
    not part of the component.  Section 4.3: [select(name | none)] sets the
    current selection unconditionally; the caller hands the selection back as
    the [selectedProject] prop. *)
Definition select (v : Nullable) (w : World) : World :=
  with_props (mkProps (projects (props w)) v (isLoading (props w))) w.

(** Modelled from the spec: the mutation hooks of [hooks/useProjects]
    ([useDeleteProject], [useDetachProject], [useReattachProject]), which are
    not part of the component.  Section 4.2: [mutateAsync name] is one
    asynchronous call to the external collaborator that settles with success
    or failure, and the [isPending] flag of an operation is true exactly for
    the duration of its in-flight call. *)
Definition mutateAsync (k : ActionKind) (arg : string)
    (onFulfilled : Prog) (onRejected : string -> Prog) (w : World) : World :=
  mkWorld (props w) (st w)
          (inflight w ++ [mkTask (next_id w) k arg onFulfilled onRejected])
          (S (next_id w))
          (calls w ++ [(k, arg)])
          (console w) (specCreating w).

(** Modelled from the spec: the [isPending] flag of the mutation hook of kind
    [k] (section 4.2): true exactly while a call of that kind is in flight. *)
Definition isPending (k : ActionKind) (w : World) : bool :=
  existsb (fun t => kind_eqb (task_kind t) k) (inflight w).

(** The world with one more line on the console. *)
Definition logged (msg error : string) (w : World) : World :=
  mkWorld (props w) (st w) (inflight w) (next_id w) (calls w)
          (console w ++ [(msg, error)]) (specCreating w).

(** One effect. *)
Definition perform (e : Effect) (ev : MouseEvent) (w : World)
  : MouseEvent * World :=
  match e with
  | setIsOpen b =>
      (ev, with_st (fun S => mkState b (showNewProjectModal S)
                      (projectToDelete S) (projectToDetach S)
                      (projectToReattach S)) w)
  | setShowNewProjectModal b =>
      (ev, with_st (fun S => mkState (isOpen S) b
                      (projectToDelete S) (projectToDetach S)
                      (projectToReattach S)) w)
  | setProjectToDelete v =>
      (ev, with_st (fun S => mkState (isOpen S) (showNewProjectModal S)
                      v (projectToDetach S) (projectToReattach S)) w)
  | setProjectToDetach v =>
      (ev, with_st (fun S => mkState (isOpen S) (showNewProjectModal S)
                      (projectToDelete S) v (projectToReattach S)) w)
  | setProjectToReattach v =>
      (ev, with_st (fun S => mkState (isOpen S) (showNewProjectModal S)
                      (projectToDelete S) (projectToDetach S) v) w)
  | onSelectProject v => (ev, select v w)
  | onSpecCreatingChange b =>
      (ev, mkWorld (props w) (st w) (inflight w) (next_id w) (calls w)
             (console w) (specCreating w ++ [b]))
  | console_error msg error => (ev, logged msg error w)
  | stopPropagation =>
      (mkMouseEvent true (defaultPrevented ev), w)
  | preventDefault =>
      (mkMouseEvent (propagationStopped ev) true, w)
  end.

(** A handler runs to its end or to its [await]; there the call is
    dispatched and the handler is suspended. *)
Fixpoint run (p : Prog) (ev : MouseEvent) (w : World) : MouseEvent * World :=
  match p with
  | Return => (ev, w)
  | Do e rest => let '(ev', w') := perform e ev w in run rest ev' w'
  | AwaitMutate k arg onFulfilled onRejected =>
      (ev, mutateAsync k arg onFulfilled onRejected w)
  end.

(** A handler that is not given a mouse event, or ignores it. *)
Definition exec (p : Prog) (w : World) : World :=
  snd (run p newMouseEvent w).

(** *** Settlement of a call in flight *)

Definition find_task (id : nat) (l : list Task) : option Task :=
  find (fun t => Nat.eqb (task_id t) id) l.

Definition drop_task (id : nat) (l : list Task) : list Task :=
  filter (fun t => negb (Nat.eqb (task_id t) id)) l.

Definition continuation (t : Task) (o : Outcome) : Prog :=
  match o with
  | Fulfilled => task_then t
  | Rejected error => task_catch t error
  end.

(** The world once the call [id] is no longer in flight. *)
Definition without_task (id : nat) (w : World) : World :=
  mkWorld (props w) (st w) (drop_task id (inflight w)) (next_id w)
          (calls w) (console w) (specCreating w).

(** The call [id] settles with outcome [o]: it is no longer in flight, and
    the suspended handler resumes after its [await] (outcome [Fulfilled]) or
    in its [catch] block (outcome [Rejected]). *)
Definition settle (id : nat) (o : Outcome) (w : World) : World :=
  match find_task id (inflight w) with
  | None => w
  | Some t =>
      exec (continuation t o) (without_task id w)
  end.

(** ** The rendered view *)

Inductive TriggerLabel :=
| Spinner
| SelectedLabel (n : string) (badge : option Z)
| Placeholder.

(** One project row of the menu.  A row carries two action icons: reattach
    for a detached project and detach otherwise ([row_toggle]), and delete. *)
Record RowView := mkRow {
  row_key : string;
  row_title : string;
  row_highlighted : bool;
  row_detachedBadge : bool;
  row_progress : option (Z * Z);
  row_toggle : ActionKind
}.

Record DialogView := mkDialog {
  dlg_isOpen : bool;
  dlg_title : string;
  dlg_confirmLabel : string;
  dlg_isLoading : bool
}.

Record View := mkView {
  trigger_disabled : bool;
  trigger_title : option string;
  trigger_label : TriggerLabel;
  menu_open : bool;
  rows : list RowView;
  modal_isOpen : bool;
  dialog : ActionKind -> DialogView
}.

(** [projects.find(p => p.name === selectedProject)] *)
Definition selectedProjectData (P : Props) : option ProjectSummary :=
  find (fun p => strict_eq (Some (name p)) (selectedProject P)) (projects P).

Definition renderRow (P : Props) (project : ProjectSummary) : RowView :=
  mkRow (name project)
        (path project)
        (strict_eq (Some (name project)) (selectedProject P))
        (is_detached project)
        (if negb (is_detached project) && (0 <? total (stats project))%Z
         then Some (passing (stats project), total (stats project))
         else None)
        (if is_detached project then Reattach else Detach).

Definition render (w : World) : View :=
  let P := props w in
  let S := st w in
  mkView
    (isLoading P)
    (option_map path (selectedProjectData P))
    (if isLoading P then Spinner
     else if truthy (selectedProject P) then
       match selectedProject P with
       | Some n =>
           SelectedLabel n
             match selectedProjectData P with
             | Some d => if (0 <? total (stats d))%Z
                         then Some (percentage (stats d)) else None
             | None => None
             end
       | None => Placeholder
       end
     else Placeholder)
    (isOpen S)
    (map (renderRow P) (projects P))
    (showNewProjectModal S)
    (fun k =>
       match k with
       | Delete =>
           mkDialog (not_null (projectToDelete S))
                    "Delete Project" "Delete" (isPending Delete w)
       | Detach =>
           mkDialog (not_null (projectToDetach S))
                    "Detach Project" "Detach" (isPending Detach w)
       | Reattach =>
           mkDialog (not_null (projectToReattach S))
                    "Reattach Project" "Reattach" (isPending Reattach w)
       end).

Definition has_button (k : ActionKind) (r : RowView) : bool :=
  kind_eqb k Delete || kind_eqb k (row_toggle r).

(** ** Events *)

(** What can happen to the component: the user acts on something the view
    shows, a mutation call settles, or the caller renders the component with
    new props.  Rows are addressed by their position in the list.
    [ClickTrigger] is the menu toggling its open state. *)
Inductive Event :=
| ClickTrigger
| SelectRow (i : nat)
| ClickAction (k : ActionKind) (i : nat)
| SelectNewProject
| ModalClose
| ModalProjectCreated (projectName : string)
| ModalStepChange (step : string)
| DialogConfirm (k : ActionKind)
| DialogCancel (k : ActionKind)
| Settle (id : nat) (o : Outcome)
| Rerender (P : Props).

(** An event is possible when the view offers it: rows and their icons while
    the menu is open, a dialog's buttons while the dialog is open, the modal's
    callbacks while the modal is open.  The dialog and the modal
    ([ConfirmDialog], [NewProjectModal]) are not part of the component: they
    are taken to call back only while their [isOpen] prop is true.  The menu
    reports a change of its open state through [onOpenChange], which the
    component wires to [setIsOpen] with no guard of its own: while the list
    is loading the component renders the trigger's button disabled
    ([trigger_disabled]), but whether the menu then still reports a change is
    the menu's business, so the event is taken to be possible at any time.
    A call can settle while it is in flight, and the caller can render the
    component again at any time. *)
Definition enabled (e : Event) (w : World) : bool :=
  let v := render w in
  match e with
  | ClickTrigger => true
  | SelectRow i =>
      menu_open v && match nth_error (rows v) i with
                     | Some _ => true
                     | None => false
                     end
  | ClickAction k i =>
      menu_open v && match nth_error (rows v) i with
                     | Some r => has_button k r
                     | None => false
                     end
  | SelectNewProject => menu_open v
  | ModalClose | ModalProjectCreated _ | ModalStepChange _ => modal_isOpen v
  | DialogConfirm k | DialogCancel k => dlg_isOpen (dialog v k)
  | Settle id _ => match find_task id (inflight w) with
                   | Some _ => true
                   | None => false
                   end
  | Rerender _ => true
  end.

(** Modelled from the spec: the menu of [components/ui/dropdown-menu], which
    is not part of the component.  Section 4.4: choosing a row closes any open
    selection menu; the menu reports that through [onOpenChange], which the
    component wires to [setIsOpen].  Choosing an item runs the item's
    [onSelect] and then closes the menu; the trigger toggles the menu. *)
Definition selectItem (onSelect : Prog) (w : World) : World :=
  exec (setIsOpen false ;; Return) (exec onSelect w).

(** Modelled from the spec: a click on the menu's trigger, which the menu
    reports through [onOpenChange] with the opposite of its [open] prop. *)
Definition toggleMenu (w : World) : World :=
  exec (setIsOpen (negb (isOpen (st w))) ;; Return) w.

(** A click on an action icon inside row [project]: the icon's [onClick]
    runs first; the click then bubbles to the row, which is chosen, unless
    the handler stopped the propagation. *)
Definition clickActionButton (k : ActionKind) (project : ProjectSummary)
    (w : World) : World :=
  let '(ev, w1) := run (handleClick k (name project)) newMouseEvent w in
  if propagationStopped ev then w1
  else selectItem (onSelectRow project) w1.

(** The effect of an event.  Every handler is the one of the current render:
    it closes over the current props and state. *)
Definition handle (e : Event) (w : World) : World :=
  match e with
  | ClickTrigger => toggleMenu w
  | SelectRow i =>
      match nth_error (projects (props w)) i with
      | Some project => selectItem (onSelectRow project) w
      | None => w
      end
  | ClickAction k i =>
      match nth_error (projects (props w)) i with
      | Some project => clickActionButton k project w
      | None => w
      end
  | SelectNewProject => selectItem onSelectNewProject w
  | ModalClose => exec onCloseModal w
  | ModalProjectCreated projectName => exec (handleProjectCreated projectName) w
  | ModalStepChange step => exec (onStepChange step) w
  | DialogConfirm k => exec (handleConfirm k (props w) (st w)) w
  | DialogCancel k => exec (handleCancel k) w
  | Settle id o => settle id o w
  | Rerender P => with_props P w
  end.

Definition fire (e : Event) (w : World) : World :=
  if enabled e w then handle e w else w.

Definition fire_all (es : list Event) (w : World) : World :=
  fold_left (fun w e => fire e w) es w.

(** The states the component can be in: it is mounted with some props and
    the initial state, and then events happen. *)
Inductive Reachable : World -> Prop :=
| reach_mount (P : Props) : Reachable (initialWorld P)
| reach_step (w : World) (e : Event) :
    Reachable w -> enabled e w = true -> Reachable (handle e w).

(** The abstract operations of the confirmation flow of kind [k], as the
    handlers implement them. *)
Definition open (k : ActionKind) (p : string) (w : World) : World :=
  exec (handleClick k p) w.

Definition cancel (k : ActionKind) (w : World) : World :=
  exec (handleCancel k) w.

Definition confirm (k : ActionKind) (w : World) : World :=
  exec (handleConfirm k (props w) (st w)) w.

(** The task that [confirm k] puts in flight in world [w]. *)
Definition dispatched (k : ActionKind) (w : World) : option Task :=
  match handleConfirm k (props w) (st w) with
  | AwaitMutate k' arg onFulfilled onRejected =>
      Some (mkTask (next_id w) k' arg onFulfilled onRejected)
  | _ => None
  end.

(** ** Notions used in the statements *)

(** The state with the pending target of kind [k] replaced. *)
Definition set_pending (k : ActionKind) (v : Nullable) (S : State) : State :=
  match k with
  | Delete => mkState (isOpen S) (showNewProjectModal S)
                      v (projectToDetach S) (projectToReattach S)
  | Detach => mkState (isOpen S) (showNewProjectModal S)
                      (projectToDelete S) v (projectToReattach S)
  | Reattach => mkState (isOpen S) (showNewProjectModal S)
                        (projectToDelete S) (projectToDetach S) v
  end.

(** The message of the [catch] block of a confirm handler. *)
Definition failure_message (k : ActionKind) : string :=
  match k with
  | Delete => "Failed to delete project:"
  | Detach => "Failed to detach project:"
  | Reattach => "Failed to reattach project:"
  end.

(** No event of the list is the settlement of the call [id]. *)
Fixpoint never_settles (id : nat) (es : list Event) : bool :=
  match es with
  | [] => true
  | Settle id' _ :: es' => negb (Nat.eqb id' id) && never_settles id es'
  | _ :: es' => never_settles id es'
  end.

(** Call identifiers are handed out in order: every call in flight has an
    identifier below the next one. *)
Definition fresh_ids (w : World) : Prop :=
  Forall (fun t => task_id t < next_id w) (inflight w).

(** [w'] comes from [w] by handlers alone: calls were only added, each with
    an identifier that was not yet handed out. *)
Definition extends (w w' : World) : Prop :=
  exists l,
    inflight w' = inflight w ++ l /\
    next_id w <= next_id w' /\
    Forall (fun t => next_id w <= task_id t < next_id w') l.

(** A call as the confirm handlers dispatch it: its target is not the empty
    name; on success the continuation clears the pending target of its kind,
    and a delete may first clear the selection; on failure it logs one line
    and clears the pending target of its kind. *)
Definition confirm_task (t : Task) : Prop :=
  task_arg t <> EmptyString /\
  exists clears : bool,
    (clears = true -> task_kind t = Delete) /\
    (forall ev w,
        run (task_then t) ev w
        = (ev, with_st (set_pending (task_kind t) None)
                 (if clears then select None w else w))) /\
    (forall error ev w,
        run (task_catch t error) ev w
        = (ev, with_st (set_pending (task_kind t) None)
                 (logged (failure_message (task_kind t)) error w))).

(** What holds of the calls of every reachable world. *)
Definition well_formed (w : World) : Prop :=
  Forall confirm_task (inflight w) /\
  Forall (fun c => snd c <> EmptyString) (calls w) /\
  length (console w) + length (inflight w) <= length (calls w).

(** The events whose handlers call [onSelectProject], and the render with
    new props. *)
Definition may_select (e : Event) : bool :=
  match e with
  | SelectRow _ | ModalProjectCreated _ | Settle _ _ | Rerender _ => true
  | _ => false
  end.

(** The action icons of the row of [project]. *)
Definition offered (k : ActionKind) (project : ProjectSummary) : Prop :=
  match k with
  | Delete => True
  | Detach => is_detached project = false
  | Reattach => is_detached project = true
  end.

(** ** Sample worlds *)

Definition alpha : ProjectSummary :=
  mkProject "alpha" "/work/alpha" false (mkStats 10 8 80).

Definition beta : ProjectSummary :=
  mkProject "beta" "/work/beta" true (mkStats 0 0 0).

(** A project whose name is the empty string. *)
Definition unnamed : ProjectSummary :=
  mkProject EmptyString "/work/unnamed" false (mkStats 0 0 0).

(** Mounted with two projects, [alpha] selected, nothing loading. *)
Definition mounted : World :=
  initialWorld (mkProps [alpha; beta] (Some "alpha") false).

(** The menu is open and the delete dialog asks about [alpha]. *)
Definition alpha_pending : World :=
  fire_all [ClickTrigger; ClickAction Delete 0] mounted.

(** The menu is open and the reattach dialog asks about [beta]. *)
Definition beta_pending : World :=
  fire_all [ClickTrigger; ClickAction Reattach 1] mounted.

(** Mounted with the project that has the empty name; the menu is open and
    the delete dialog asks about that project. *)
Definition unnamed_pending : World :=
  fire_all [ClickTrigger; ClickAction Delete 0]
           (initialWorld (mkProps [unnamed] None false)).

(** Mounted with [alpha] selected; the user asks to delete [alpha],
    confirms, and chooses the row of [beta] while the call is in flight. *)
Definition reselected_in_flight : World :=
  fire_all [ClickTrigger; ClickAction Delete 0; DialogConfirm Delete; SelectRow 1]
           mounted.

(** Mounted with [beta] selected; the user asks to delete [alpha], confirms,
    and chooses the row of [alpha] while the call is in flight. *)
Definition selected_in_flight : World :=
  fire_all [ClickTrigger; ClickAction Delete 0; DialogConfirm Delete; SelectRow 0]
           (initialWorld (mkProps [alpha; beta] (Some "beta") false)).

(** The menu was opened, and then the caller reports that the list is
    loading. *)
Definition loading_open : World :=
  fire_all [ClickTrigger; Rerender (mkProps [alpha; beta] (Some "alpha") true)]
           mounted.

(** ** Basic facts about the interpreter *)

Lemma kind_eqb_refl (k : ActionKind) : kind_eqb k k = true.
Proof. destruct k; reflexivity. Qed.

Lemma truthy_Some (p : string) : p <> EmptyString -> truthy (Some p) = true.
Proof.
  intros Hp. simpl. destruct (String.eqb_spec p EmptyString); [contradiction | reflexivity].
Qed.

Lemma open_eq (k : ActionKind) (p : string) (w : World) :
  open k p w = with_st (set_pending k (Some p)) w.
Proof. destruct k; reflexivity. Qed.

Lemma cancel_eq (k : ActionKind) (w : World) :
  cancel k w = with_st (set_pending k None) w.
Proof. destruct k; reflexivity. Qed.

Lemma pending_set_pending (k : ActionKind) (v : Nullable) (S : State) :
  pending k (set_pending k v S) = v.
Proof. destruct k; reflexivity. Qed.

Lemma pending_set_other (k k' : ActionKind) (v : Nullable) (S : State) :
  k' <> k -> pending k' (set_pending k v S) = pending k' S.
Proof. destruct k, k'; simpl; congruence. Qed.

Lemma set_pending_same (k : ActionKind) (S : State) :
  set_pending k (pending k S) S = S.
Proof. destruct k, S; reflexivity. Qed.

Lemma set_pending_twice (k : ActionKind) (u v : Nullable) (S : State) :
  set_pending k v (set_pending k u S) = set_pending k v S.
Proof. destruct k; reflexivity. Qed.

(** The [isOpen] prop of a dialog is computed from the pending target alone. *)
Lemma dialog_isOpen_spec (w : World) (k : ActionKind) :
  dlg_isOpen (dialog (render w) k) = true <-> pending k (st w) <> None.
Proof.
  destruct k; simpl;
    match goal with |- not_null ?v = true <-> _ => destruct v end;
    simpl; split; congruence.
Qed.

(** What [confirm] does, by the guard at the top of each confirm handler. *)
Lemma handleConfirm_falsy (k : ActionKind) (P : Props) (S : State) :
  truthy (pending k S) = false -> handleConfirm k P S = Return.
Proof.
  destruct k; simpl; unfold handleConfirmDelete, handleConfirmDetach,
    handleConfirmReattach; intros ->; reflexivity.
Qed.

Lemma handleConfirm_truthy (k : ActionKind) (P : Props) (S : State) (p : string) :
  pending k S = Some p -> p <> EmptyString ->
  exists onFulfilled onRejected,
    handleConfirm k P S = AwaitMutate k p onFulfilled onRejected /\
    (forall ev w,
        run onFulfilled ev w =
        (ev, with_st (set_pending k None)
               (if kind_eqb k Delete && strict_eq (selectedProject P) (Some p)
                then select None w else w))) /\
    (forall error ev w,
        run (onRejected error) ev w =
        (ev, with_st (set_pending k None) (logged (failure_message k) error w))).
Proof.
  intros Hp Hne. pose proof (truthy_Some p Hne) as Ht.
  destruct k; simpl in Hp; simpl handleConfirm;
    unfold handleConfirmDelete, handleConfirmDetach, handleConfirmReattach;
    rewrite Hp, Ht; simpl negb; cbv iota.
  - do 2 eexists. split; [reflexivity|]. split.
    + intros ev w. simpl. destruct (strict_eq (selectedProject P) (Some p));
        reflexivity.
    + intros error ev w. reflexivity.
  - do 2 eexists. split; [reflexivity|]. split; intros; reflexivity.
  - do 2 eexists. split; [reflexivity|]. split; intros; reflexivity.
Qed.

(** The confirm operation with a truthy pending target: one call goes out,
    and the handler is suspended with its continuation. *)
Lemma confirm_dispatch (k : ActionKind) (w : World) (p : string) :
  pending k (st w) = Some p -> p <> EmptyString ->
  exists t,
    dispatched k w = Some t /\
    task_id t = next_id w /\ task_kind t = k /\ task_arg t = p /\
    confirm k w = mkWorld (props w) (st w) (inflight w ++ [t])
                          (S (next_id w)) (calls w ++ [(k, p)])
                          (console w) (specCreating w) /\
    (forall w2,
       find_task (task_id t) (inflight w2) = Some t ->
       settle (task_id t) Fulfilled w2
       = with_st (set_pending k None)
           (if kind_eqb k Delete
               && strict_eq (selectedProject (props w)) (Some p)
            then select None (without_task (task_id t) w2)
            else without_task (task_id t) w2)) /\
    (forall w2 error,
       find_task (task_id t) (inflight w2) = Some t ->
       settle (task_id t) (Rejected error) w2
       = with_st (set_pending k None)
           (logged (failure_message k) error (without_task (task_id t) w2))).
Proof.
  intros Hp Hne.
  destruct (handleConfirm_truthy k (props w) (st w) p Hp Hne)
    as (onF & onR & Hh & HF & HR).
  exists (mkTask (next_id w) k p onF onR).
  unfold dispatched, confirm. rewrite Hh. simpl.
  repeat split.
  - intros w2 Hfind. unfold settle. rewrite Hfind. simpl.
    unfold exec. now rewrite HF.
  - intros w2 error Hfind. unfold settle. rewrite Hfind. simpl.
    unfold exec. now rewrite HR.
Qed.

(** Handlers never take a call out of flight and never change a call in
    flight; only a settlement removes a call, and only its own. *)
Lemma extends_refl (w : World) : extends w w.
Proof. exists []. rewrite app_nil_r. repeat split; auto. Qed.

Lemma extends_trans (w1 w2 w3 : World) :
  extends w1 w2 -> extends w2 w3 -> extends w1 w3.
Proof.
  intros (l1 & E1 & N1 & F1) (l2 & E2 & N2 & F2).
  exists (l1 ++ l2). rewrite E2, E1, app_assoc. repeat split; [lia|].
  apply Forall_app. split.
  - eapply Forall_impl; [|exact F1]. simpl. intros t Ht. lia.
  - eapply Forall_impl; [|exact F2]. simpl. intros t Ht. lia.
Qed.

Lemma perform_extends (e : Effect) (ev : MouseEvent) (w : World) :
  extends w (snd (perform e ev w)).
Proof.
  destruct e; exists []; simpl; rewrite app_nil_r; repeat split; auto.
Qed.

Lemma run_extends (p : Prog) :
  forall ev w, extends w (snd (run p ev w)).
Proof.
  induction p as [| e rest IH | k arg onF _ onR _]; intros ev w; simpl.
  - apply extends_refl.
  - pose proof (perform_extends e ev w) as He.
    destruct (perform e ev w) as [ev' w']. simpl in He.
    eapply extends_trans; [exact He | apply IH].
  - eexists. split; [reflexivity|]. simpl. split; [lia|].
    constructor; [simpl; lia | constructor].
Qed.

Lemma exec_extends (p : Prog) (w : World) : extends w (exec p w).
Proof. apply run_extends. Qed.

Lemma extends_fresh (w w' : World) :
  extends w w' -> fresh_ids w -> fresh_ids w'.
Proof.
  intros (l & E & N & F) Hw. unfold fresh_ids. rewrite E.
  apply Forall_app. split.
  - eapply Forall_impl; [|exact Hw]. simpl. intros t Ht. lia.
  - eapply Forall_impl; [|exact F]. simpl. intros t Ht. lia.
Qed.

Lemma find_task_app (id : nat) (l l' : list Task) (t : Task) :
  find_task id l = Some t -> find_task id (l ++ l') = Some t.
Proof.
  unfold find_task. induction l as [| a l IH]; simpl; [discriminate|].
  destruct (Nat.eqb (task_id a) id); auto.
Qed.

Lemma extends_find (w w' : World) (id : nat) (t : Task) :
  extends w w' ->
  find_task id (inflight w) = Some t -> find_task id (inflight w') = Some t.
Proof. intros (l & E & _) H. rewrite E. now apply find_task_app. Qed.

Lemma find_task_drop (id id' : nat) (l : list Task) :
  Nat.eqb id' id = false ->
  find_task id (drop_task id' l) = find_task id l.
Proof.
  unfold find_task, drop_task. intros Hne.
  induction l as [| a l IH]; simpl; [reflexivity|].
  destruct (Nat.eqb (task_id a) id') eqn:E'; simpl.
  - apply Nat.eqb_eq in E'. rewrite E', Hne. exact IH.
  - destruct (Nat.eqb (task_id a) id); [reflexivity | exact IH].
Qed.

Lemma without_task_fresh (id : nat) (w : World) :
  fresh_ids w -> fresh_ids (without_task id w).
Proof.
  unfold fresh_ids, without_task, drop_task. simpl. intros H.
  induction H as [| t l Ht Hl IH]; simpl; [constructor|].
  destruct (negb (Nat.eqb (task_id t) id)); auto.
Qed.

Lemma extends_same (w w' : World) :
  inflight w' = inflight w -> next_id w' = next_id w -> extends w w'.
Proof.
  intros E N. exists []. rewrite E, N, app_nil_r. repeat split; auto.
Qed.

Lemma selectItem_extends (p : Prog) (w : World) : extends w (selectItem p w).
Proof. unfold selectItem. eapply extends_trans; apply exec_extends. Qed.

(** Every event but a settlement only runs handlers. *)
Lemma handle_extends (e : Event) (w : World) :
  (forall id o, e <> Settle id o) -> extends w (handle e w).
Proof.
  intros He. destruct e; simpl handle.
  - apply exec_extends.
  - destruct (nth_error (projects (props w)) i);
      [apply selectItem_extends | apply extends_refl].
  - destruct (nth_error (projects (props w)) i) as [project|];
      [|apply extends_refl].
    unfold clickActionButton.
    pose proof (run_extends (handleClick k (name project)) newMouseEvent w) as H1.
    destruct (run (handleClick k (name project)) newMouseEvent w) as [ev w1].
    simpl in H1. destruct (propagationStopped ev); [exact H1|].
    eapply extends_trans; [exact H1 | apply selectItem_extends].
  - apply selectItem_extends.
  - apply exec_extends.
  - apply exec_extends.
  - apply exec_extends.
  - apply exec_extends.
  - apply exec_extends.
  - now contradiction (He id o).
  - now apply extends_same.
Qed.

Lemma settle_fresh (id : nat) (o : Outcome) (w : World) :
  fresh_ids w -> fresh_ids (settle id o w).
Proof.
  intros H. unfold settle. destruct (find_task id (inflight w)); [|exact H].
  eapply extends_fresh; [apply exec_extends|]. now apply without_task_fresh.
Qed.

Lemma handle_fresh (e : Event) (w : World) :
  fresh_ids w -> fresh_ids (handle e w).
Proof.
  intros H. destruct e; try (eapply extends_fresh;
    [apply handle_extends; intros; discriminate | exact H]).
  now apply settle_fresh.
Qed.

Lemma reachable_fresh (w : World) : Reachable w -> fresh_ids w.
Proof.
  induction 1 as [P | w e Hw IH He]; [constructor|]. now apply handle_fresh.
Qed.

Lemma handle_find (id : nat) (t : Task) (e : Event) (w : World) :
  never_settles id [e] = true ->
  find_task id (inflight w) = Some t ->
  find_task id (inflight (handle e w)) = Some t.
Proof.
  intros He H.
  destruct e; try (eapply extends_find;
    [apply handle_extends; intros; discriminate | exact H]).
  simpl in He. rewrite andb_true_r in He. apply negb_true_iff in He.
  simpl. unfold settle.
  destruct (find_task id0 (inflight w)) as [t0|]; [|exact H].
  eapply extends_find; [apply exec_extends|].
  simpl. now rewrite find_task_drop.
Qed.

Lemma never_settles_cons (id : nat) (e : Event) (es : list Event) :
  never_settles id (e :: es) = true ->
  never_settles id [e] = true /\ never_settles id es = true.
Proof.
  destruct e; simpl; intros H; try (split; [reflexivity | exact H]).
  apply andb_true_iff in H. destruct H as [-> ->]. now split.
Qed.

Lemma fire_all_find (id : nat) (t : Task) (es : list Event) :
  forall w, never_settles id es = true ->
            find_task id (inflight w) = Some t ->
            find_task id (inflight (fire_all es w)) = Some t.
Proof.
  induction es as [| e es IH]; intros w Hes H; simpl; [exact H|].
  apply never_settles_cons in Hes. destruct Hes as [He Hes].
  apply IH; [exact Hes|].
  unfold fire. destruct (enabled e w); [|exact H].
  now apply handle_find.
Qed.

Lemma find_task_isPending (id : nat) (t : Task) (w : World) :
  find_task id (inflight w) = Some t -> isPending (task_kind t) w = true.
Proof.
  unfold find_task, isPending. intros H. apply find_some in H.
  apply existsb_exists. exists t. split; [tauto | apply kind_eqb_refl].
Qed.

(** In a world whose identifiers are fresh, the call that [confirm] has just
    dispatched is found under its identifier. *)
Lemma find_task_new (w : World) (t : Task) :
  fresh_ids w -> task_id t = next_id w ->
  find_task (next_id w) (inflight w ++ [t]) = Some t.
Proof.
  unfold fresh_ids, find_task. intros H Ht.
  induction H as [| a l Ha Hl IH]; simpl.
  - rewrite Ht, Nat.eqb_refl. reflexivity.
  - destruct (Nat.eqb_spec (task_id a) (next_id w)); [lia | exact IH].
Qed.

Lemma strict_eq_Some (v : Nullable) (p : string) :
  strict_eq v (Some p) = true <-> v = Some p.
Proof.
  destruct v as [q|]; simpl; [|split; discriminate].
  destruct (String.eqb_spec q p); split; congruence.
Qed.

Lemma alpha_pending_reachable : Reachable alpha_pending.
Proof.
  change alpha_pending
    with (handle (ClickAction Delete 0) (handle ClickTrigger mounted)).
  apply reach_step; [apply reach_step; [apply reach_mount | reflexivity] | reflexivity].
Qed.

Lemma beta_pending_reachable : Reachable beta_pending.
Proof.
  change beta_pending
    with (handle (ClickAction Reattach 1) (handle ClickTrigger mounted)).
  apply reach_step; [apply reach_step; [apply reach_mount | reflexivity] | reflexivity].
Qed.

(** ** Every call in flight comes from a confirm handler *)

Lemma confirm_cases (k : ActionKind) (w : World) :
  confirm k w = w \/
  exists p t,
    pending k (st w) = Some p /\ p <> EmptyString /\
    task_kind t = k /\ task_arg t = p /\ confirm_task t /\
    confirm k w = mkWorld (props w) (st w) (inflight w ++ [t])
                          (S (next_id w)) (calls w ++ [(k, p)])
                          (console w) (specCreating w).
Proof.
  destruct (truthy (pending k (st w))) eqn:Ht.
  - right. destruct (pending k (st w)) as [p|] eqn:Hp; [|discriminate Ht].
    assert (Hne : p <> EmptyString).
    { intros ->. discriminate Ht. }
    destruct (handleConfirm_truthy k (props w) (st w) p Hp Hne)
      as (onF & onR & Hh & HF & HR).
    exists p, (mkTask (next_id w) k p onF onR).
    repeat split; auto.
    + exists (kind_eqb k Delete && strict_eq (selectedProject (props w)) (Some p)).
      simpl. repeat split; auto.
      intros Hb. apply andb_true_iff in Hb. destruct Hb as [Hb _].
      destruct k; simpl in Hb; congruence.
    + unfold confirm. rewrite Hh. reflexivity.
  - left. unfold confirm. now rewrite (handleConfirm_falsy k _ _ Ht).
Qed.

Lemma settle_confirm_task (id : nat) (w : World) (t : Task) :
  find_task id (inflight w) = Some t -> confirm_task t ->
  exists clears : bool,
    (clears = true -> task_kind t = Delete) /\
    forall o,
      settle id o w
      = with_st (set_pending (task_kind t) None)
          match o with
          | Fulfilled => if clears then select None (without_task id w)
                         else without_task id w
          | Rejected error =>
              logged (failure_message (task_kind t)) error (without_task id w)
          end.
Proof.
  intros Hf (_ & clears & Hk & HF & HR). exists clears. split; [exact Hk|].
  intros o. unfold settle, exec. rewrite Hf.
  destruct o as [| error]; simpl; [now rewrite HF | now rewrite HR].
Qed.

Lemma drop_task_shorter (id : nat) (l : list Task) (t : Task) :
  find_task id l = Some t -> length (drop_task id l) < length l.
Proof.
  unfold find_task, drop_task. induction l as [| a l IH]; simpl; [discriminate|].
  destruct (Nat.eqb (task_id a) id) eqn:E; simpl.
  - intros _. pose proof (filter_length_le (fun t0 => negb (Nat.eqb (task_id t0) id)) l).
    lia.
  - intros H. apply IH in H. lia.
Qed.

Lemma find_task_dropped (id : nat) (l : list Task) :
  find_task id (drop_task id l) = None.
Proof.
  unfold find_task, drop_task. induction l as [| a l IH]; simpl; [reflexivity|].
  destruct (Nat.eqb (task_id a) id) eqn:E; simpl; [exact IH|].
  now rewrite E.
Qed.

Lemma settle_well_formed (id : nat) (o : Outcome) (w : World) :
  well_formed w -> well_formed (settle id o w).
Proof.
  intros (Ht & Hc & Hn).
  destruct (find_task id (inflight w)) as [t|] eqn:Hf;
    [|unfold settle; rewrite Hf; repeat split; assumption].
  pose proof (find_some _ _ Hf) as [Hin _].
  pose proof (proj1 (Forall_forall _ _) Ht t Hin) as Hct.
  destruct (settle_confirm_task id w t Hf Hct) as (clears & _ & Hs).
  rewrite (Hs o).
  pose proof (drop_task_shorter id _ t Hf) as Hlen.
  assert (Hdrop : Forall confirm_task (drop_task id (inflight w))).
  { apply Forall_forall. intros t' Ht'. apply filter_In in Ht'.
    apply (proj1 (Forall_forall _ _) Ht t'). tauto. }
  destruct o as [| error]; [destruct clears|]; repeat split; simpl;
    try assumption; try lia.
  rewrite length_app. simpl. lia.
Qed.

Lemma confirm_well_formed (k : ActionKind) (w : World) :
  well_formed w -> well_formed (confirm k w).
Proof.
  intros (Ht & Hc & Hn).
  destruct (confirm_cases k w) as [-> | (p & t & _ & Hne & _ & _ & Hct & ->)];
    [repeat split; assumption|].
  repeat split; simpl.
  - apply Forall_app. split; [exact Ht | constructor; [exact Hct | constructor]].
  - apply Forall_app. split; [exact Hc | constructor; [exact Hne | constructor]].
  - rewrite !length_app. simpl. lia.
Qed.

Lemma handle_well_formed (e : Event) (w : World) :
  well_formed w -> well_formed (handle e w).
Proof.
  intros H. destruct e; simpl handle.
  - exact H.
  - destruct (nth_error (projects (props w)) i); exact H.
  - destruct (nth_error (projects (props w)) i); [destruct k|]; exact H.
  - exact H.
  - exact H.
  - exact H.
  - exact H.
  - now apply confirm_well_formed.
  - destruct k; exact H.
  - now apply settle_well_formed.
  - exact H.
Qed.

Lemma reachable_well_formed (w : World) : Reachable w -> well_formed w.
Proof.
  induction 1 as [P | w e Hw IH He].
  - repeat split; simpl; auto.
  - now apply handle_well_formed.
Qed.

Lemma fire_reachable (e : Event) (w : World) :
  Reachable w -> Reachable (fire e w).
Proof.
  intros H. unfold fire. destruct (enabled e w) eqn:E; [|exact H].
  now apply reach_step.
Qed.

Lemma fire_all_reachable (es : list Event) :
  forall w, Reachable w -> Reachable (fire_all es w).
Proof.
  induction es as [| e es IH]; intros w H; simpl; [exact H|].
  apply IH. now apply fire_reachable.
Qed.

Lemma reselected_in_flight_reachable : Reachable reselected_in_flight.
Proof. apply fire_all_reachable. apply reach_mount. Qed.

Lemma settle_reachable (w : World) (id : nat) (k : ActionKind) :
  Reachable w ->
  option_map task_kind (find_task id (inflight w)) = Some k ->
  exists clears : bool,
    (clears = true -> k = Delete) /\
    forall o,
      settle id o w
      = with_st (set_pending k None)
          match o with
          | Fulfilled => if clears then select None (without_task id w)
                         else without_task id w
          | Rejected error =>
              logged (failure_message k) error (without_task id w)
          end.
Proof.
  intros Hw Hk. apply reachable_well_formed in Hw. destruct Hw as (Ht & _).
  destruct (find_task id (inflight w)) as [t|] eqn:Hf; [|discriminate Hk].
  simpl in Hk. injection Hk as <-.
  pose proof (find_some _ _ Hf) as [Hin _].
  apply (settle_confirm_task id w t Hf).
  apply (proj1 (Forall_forall _ _) Ht t Hin).
Qed.

(** ** The confirmation flows *)

(** C9. For every action kind [k]: the confirm operation for [k], invoked
    when the pending target for [k] is none, returns at its guard.  It
    dispatches no mutation call (the log of calls and the calls in flight are
    as before) and leaves the whole world as it was; it is not an error. *)
Theorem confirm_without_target_is_noop (k : ActionKind) (w : World) :
  pending k (st w) = None ->
  confirm k w = w /\
  dispatched k w = None /\
  calls (confirm k w) = calls w /\
  inflight (confirm k w) = inflight w.
Proof.
  intros Hnone.
  assert (Hret : handleConfirm k (props w) (st w) = Return).
  { apply handleConfirm_falsy. rewrite Hnone. reflexivity. }
  unfold confirm, dispatched. rewrite Hret. repeat split; reflexivity.
Qed.

Lemma confirm_without_target_is_noop_witness :
  confirm Detach mounted = mounted /\
  dispatched Detach mounted = None /\
  calls (confirm Detach mounted) = calls mounted /\
  inflight (confirm Detach mounted) = inflight mounted.
Proof. apply (confirm_without_target_is_noop Detach mounted). reflexivity. Defined.

(** C10. In every reachable state and for every action kind [k], the
    confirmation dialog for [k] is rendered open if and only if the pending
    target for [k] is not none.  As the statement is about every reachable
    state, every operation (open, cancel, confirm, settlement) preserves the
    correspondence. *)
Theorem dialog_open_iff_pending (w : World) (k : ActionKind) :
  Reachable w ->
  dlg_isOpen (dialog (render w) k) = true <-> pending k (st w) <> None.
Proof.
  intros Hw. induction Hw as [P | w e Hw IH He].
  - destruct k; simpl; split; congruence.
  - apply dialog_isOpen_spec.
Qed.

Lemma dialog_open_iff_pending_witness :
  dlg_isOpen
    (dialog (render (handle (ClickAction Reattach 1) (handle ClickTrigger mounted)))
            Reattach) = true
  <-> pending Reattach
        (st (handle (ClickAction Reattach 1) (handle ClickTrigger mounted)))
      <> None.
Proof.
  apply (dialog_open_iff_pending
           (handle (ClickAction Reattach 1) (handle ClickTrigger mounted)) Reattach).
  apply reach_step; [apply reach_step; [apply reach_mount | reflexivity] | reflexivity].
Defined.

(** C5. For every action kind [k] and project names [p1], [p2]: the open
    operation for [k] with target [p2], performed while [k] already has the
    pending target [p1], makes the pending target for [k] equal to [p2].  The
    prior target is discarded: the resulting world is the one reached by
    opening [p2] with no target pending, no call is dispatched and nothing is
    put in flight, so nothing is queued for [p1]. *)
Theorem open_replaces_pending_target (k : ActionKind) (p1 p2 : string) (w : World) :
  pending k (st w) = Some p1 ->
  pending k (st (open k p2 w)) = Some p2 /\
  open k p2 w = open k p2 (cancel k w) /\
  calls (open k p2 w) = calls w /\
  inflight (open k p2 w) = inflight w /\
  (forall k', k' <> k -> pending k' (st (open k p2 w)) = pending k' (st w)).
Proof.
  intros _. rewrite !open_eq, cancel_eq. repeat split.
  - simpl. apply pending_set_pending.
  - unfold with_st. simpl. now rewrite set_pending_twice.
  - intros k' Hk'. simpl. now apply pending_set_other.
Qed.

Lemma open_replaces_pending_target_witness :
  pending Delete (st (open Delete "beta" (open Delete "alpha" mounted))) = Some "beta" /\
  open Delete "beta" (open Delete "alpha" mounted)
  = open Delete "beta" (cancel Delete (open Delete "alpha" mounted)) /\
  calls (open Delete "beta" (open Delete "alpha" mounted))
  = calls (open Delete "alpha" mounted) /\
  inflight (open Delete "beta" (open Delete "alpha" mounted))
  = inflight (open Delete "alpha" mounted) /\
  (forall k', k' <> Delete ->
     pending k' (st (open Delete "beta" (open Delete "alpha" mounted)))
     = pending k' (st (open Delete "alpha" mounted))).
Proof.
  apply (open_replaces_pending_target Delete "alpha" "beta" (open Delete "alpha" mounted)).
  reflexivity.
Defined.

(** C6. For every action kind [k] and every project row: a click on the
    row's action icon for [k] changes only the pending target for [k], which
    becomes the row's project.  The handler stops the propagation of the
    click, so the row is not chosen: the current selection and the menu are as
    before, whether or not the row is the selected project's. *)
Theorem action_click_keeps_selection (k : ActionKind) (project : ProjectSummary)
    (w : World) :
  clickActionButton k project w
  = with_st (set_pending k (Some (name project))) w /\
  selectedProject (props (clickActionButton k project w))
  = selectedProject (props w) /\
  props (clickActionButton k project w) = props w /\
  isOpen (st (clickActionButton k project w)) = isOpen (st w) /\
  pending k (st (clickActionButton k project w)) = Some (name project).
Proof.
  assert (E : clickActionButton k project w
              = with_st (set_pending k (Some (name project))) w).
  { destruct k; reflexivity. }
  rewrite E. repeat split; destruct k; reflexivity.
Qed.

(** C8. For every project name [n] yielded by the creation wizard: the
    handling of the wizard's completion sets the selection to [n] and closes
    the selection menu, and the resulting world is the one reached when the
    user chooses the row of a project named [n]. *)
Theorem project_created_is_selection (n : string) (w : World) :
  selectedProject (props (exec (handleProjectCreated n) w)) = Some n /\
  isOpen (st (exec (handleProjectCreated n) w)) = false /\
  (forall pth detached sts,
     exec (handleProjectCreated n) w
     = selectItem (onSelectRow (mkProject n pth detached sts)) w) /\
  handle (ModalProjectCreated n) w = exec (handleProjectCreated n) w.
Proof. repeat split. Qed.

(** C4, as the code has it.  For every action kind [k], every project name
    [p] and every starting state: the open operation for [k] with target [p]
    followed by the cancel operation for [k] dispatches no mutation call and
    yields the starting state with the pending target for [k] cleared, which
    is the state that cancel alone yields.  When no target is pending for [k]
    in the starting state, that is the starting state itself. *)
Theorem open_then_cancel_restores (k : ActionKind) (p : string) (w : World) :
  cancel k (open k p w) = with_st (set_pending k None) w /\
  cancel k (open k p w) = cancel k w /\
  pending k (st (cancel k (open k p w))) = None /\
  calls (open k p w) = calls w /\
  inflight (open k p w) = inflight w /\
  calls (cancel k (open k p w)) = calls w /\
  (pending k (st w) = None -> cancel k (open k p w) = w).
Proof.
  assert (E : cancel k (open k p w) = with_st (set_pending k None) w).
  { rewrite cancel_eq, open_eq. unfold with_st. simpl.
    now rewrite set_pending_twice. }
  repeat split.
  - exact E.
  - now rewrite E, cancel_eq.
  - rewrite E. simpl. apply pending_set_pending.
  - now rewrite open_eq.
  - now rewrite open_eq.
  - now rewrite E.
  - intros Hnone. rewrite E. unfold with_st.
    rewrite <- Hnone, set_pending_same. destruct w; reflexivity.
Qed.

Lemma open_then_cancel_restores_witness :
  cancel Detach (open Detach "alpha" alpha_pending) = alpha_pending /\
  cancel Delete (open Delete "beta" alpha_pending) = cancel Delete alpha_pending /\
  pending Delete (st (cancel Delete (open Delete "beta" alpha_pending))) = None.
Proof.
  destruct (open_then_cancel_restores Detach "alpha" alpha_pending)
    as (_ & _ & _ & _ & _ & _ & Hidle).
  destruct (open_then_cancel_restores Delete "beta" alpha_pending)
    as (_ & Hcancel & Hnone & _).
  split; [apply Hidle; reflexivity | split; [exact Hcancel | exact Hnone]].
Defined.

(** C4 as stated fails: in a state where the delete dialog already asks about
    [alpha], opening delete on [beta] and cancelling leaves no pending target,
    which is not the starting state. *)
Lemma open_then_cancel_loses_prior_target :
  pending Delete (st alpha_pending) = Some "alpha" /\
  pending Delete (st (cancel Delete (open Delete "beta" alpha_pending))) = None /\
  cancel Delete (open Delete "beta" alpha_pending) <> alpha_pending.
Proof.
  repeat split. intros H.
  apply (f_equal (fun w => pending Delete (st w))) in H. discriminate H.
Qed.

(** ** Confirmation and settlement *)

(** *** The course of a confirmation

    A reachable world [w] in which the non-empty name [p] is the pending
    target of kind [k]; the user confirms, and the events [es] happen while
    the call is in flight. *)
Section Confirmation.

Variables (k : ActionKind) (p : string) (w : World) (es : list Event).

Hypothesis w_reachable : Reachable w.
Hypothesis p_pending : pending k (st w) = Some p.
Hypothesis p_nonempty : p <> EmptyString.
Hypothesis es_in_flight : never_settles (next_id w) es = true.

(** The call that [confirm] dispatches stays in flight, with the
    continuation it was dispatched with, until the event that settles it. *)
Lemma confirm_in_flight :
  exists t,
    dispatched k w = Some t /\ task_id t = next_id w /\ task_kind t = k /\
    find_task (next_id w) (inflight (fire_all es (confirm k w))) = Some t.
Proof.
  destruct (confirm_dispatch k w p p_pending p_nonempty)
    as (t & Hd & Hid & Hk & _ & Hc & _).
  exists t. repeat split; auto.
  apply fire_all_find.
  - exact es_in_flight.
  - rewrite Hc. simpl. apply find_task_new; [|exact Hid].
    now apply reachable_fresh.
Qed.

(** What the settlement of that call does. *)
Lemma confirm_then_settle (o : Outcome) :
  settle (next_id w) o (fire_all es (confirm k w))
  = with_st (set_pending k None)
      match o with
      | Fulfilled =>
          if kind_eqb k Delete && strict_eq (selectedProject (props w)) (Some p)
          then select None (without_task (next_id w) (fire_all es (confirm k w)))
          else without_task (next_id w) (fire_all es (confirm k w))
      | Rejected error =>
          logged (failure_message k) error
                 (without_task (next_id w) (fire_all es (confirm k w)))
      end.
Proof.
  destruct (confirm_dispatch k w p p_pending p_nonempty)
    as (t & Hd & Hid & Hk & _ & Hc & HF & HR).
  destruct confirm_in_flight as (t' & Hd' & _ & _ & Hfind).
  assert (t' = t) by congruence. subst t'. rewrite <- Hid in *.
  destruct o as [| error]; [now apply HF | now apply HR].
Qed.

(** C3, as the code has it.  For every action kind [k] and every non-empty
    project name [p] that is the pending target for [k]: one confirm
    operation dispatches exactly one mutation call, for [(k, p)]; the
    [isPending] flag for [k] is true in every state between the dispatch and
    the settlement of that call; and the settlement, with success or with
    failure, dispatches no further call. *)
Theorem confirm_dispatches_one_call (o : Outcome) :
  calls (confirm k w) = calls w ++ [(k, p)] /\
  isPending k (fire_all es (confirm k w)) = true /\
  calls (settle (next_id w) o (fire_all es (confirm k w)))
  = calls (fire_all es (confirm k w)).
Proof.
  repeat split.
  - destruct (confirm_dispatch k w p p_pending p_nonempty)
      as (t & _ & _ & _ & _ & Hc & _).
    now rewrite Hc.
  - destruct confirm_in_flight as (t & _ & _ & Hk & Hf).
    pose proof (find_task_isPending _ _ _ Hf) as Hpend. now rewrite Hk in Hpend.
  - rewrite confirm_then_settle.
    destruct o; simpl;
      [destruct (kind_eqb k Delete && strict_eq (selectedProject (props w)) (Some p))|];
      reflexivity.
Qed.

End Confirmation.

(** C1. For every action kind [k] and every project name [p]: after the
    confirm operation for [k] with pending target [p], and whatever happens
    while the call is in flight, when the mutation call for [(k, p)] settles,
    with success or with failure, the pending target for [k] is none.  For a
    non-empty [p] the confirm operation does dispatch that call, and it is in
    flight until the event that settles it. *)
Theorem confirm_settlement_clears_pending (k : ActionKind) (p : string)
    (w : World) (es : list Event) :
  Reachable w ->
  pending k (st w) = Some p ->
  (forall id o,
     option_map (fun t => (task_kind t, task_arg t))
                (find_task id (inflight (fire_all es (confirm k w))))
     = Some (k, p) ->
     pending k (st (settle id o (fire_all es (confirm k w)))) = None) /\
  (p <> EmptyString -> never_settles (next_id w) es = true ->
   option_map (fun t => (task_kind t, task_arg t))
              (find_task (next_id w) (inflight (fire_all es (confirm k w))))
   = Some (k, p)).
Proof.
  intros Hw Hp. split.
  - intros id o Hf.
    assert (Hw2 : Reachable (fire_all es (confirm k w))).
    { apply fire_all_reachable.
      apply (reach_step w (DialogConfirm k) Hw).
      apply dialog_isOpen_spec. rewrite Hp. discriminate. }
    assert (Hk : option_map task_kind
                   (find_task id (inflight (fire_all es (confirm k w)))) = Some k).
    { destruct (find_task id (inflight (fire_all es (confirm k w)))) as [t|];
        [|discriminate Hf].
      simpl in *. congruence. }
    destruct (settle_reachable _ id k Hw2 Hk) as (clears & _ & Hs).
    rewrite (Hs o). simpl. apply pending_set_pending.
  - intros Hne Hes.
    destruct (confirm_dispatch k w p Hp Hne) as (t & Hd & _ & _ & Ha & _).
    destruct (confirm_in_flight k p w es Hw Hp Hne Hes)
      as (t' & Hd' & _ & Hk & Hf).
    assert (t' = t) by congruence. subst t'.
    rewrite Hf. simpl. now rewrite Hk, Ha.
Qed.

Lemma confirm_settlement_clears_pending_witness :
  option_map (fun t => (task_kind t, task_arg t))
             (find_task (next_id beta_pending)
                (inflight (fire_all [SelectRow 0] (confirm Reattach beta_pending))))
  = Some (Reattach, "beta") /\
  pending Reattach
    (st (settle (next_id beta_pending) (Rejected "conflict")
           (fire_all [SelectRow 0] (confirm Reattach beta_pending)))) = None.
Proof.
  destruct (confirm_settlement_clears_pending Reattach "beta" beta_pending
              [SelectRow 0] beta_pending_reachable eq_refl) as [Hclears Hflight].
  pose proof (Hflight ltac:(discriminate) eq_refl) as Hf.
  split; [exact Hf | exact (Hclears _ (Rejected "conflict") Hf)].
Defined.

Lemma confirm_dispatches_one_call_witness :
  calls (confirm Delete alpha_pending) = calls alpha_pending ++ [(Delete, "alpha")] /\
  isPending Delete
    (fire_all [SelectRow 1; ClickAction Delete 1] (confirm Delete alpha_pending))
  = true /\
  calls (settle (next_id alpha_pending) (Rejected "offline")
           (fire_all [SelectRow 1; ClickAction Delete 1]
                     (confirm Delete alpha_pending)))
  = calls (fire_all [SelectRow 1; ClickAction Delete 1]
                    (confirm Delete alpha_pending)).
Proof.
  apply (confirm_dispatches_one_call Delete "alpha" alpha_pending
           [SelectRow 1; ClickAction Delete 1]).
  - exact alpha_pending_reachable.
  - reflexivity.
  - discriminate.
  - reflexivity.
Defined.

(** C3 as stated fails for the empty project name: with the empty name as
    pending target the confirm operation dispatches no call at all. *)
Lemma confirm_empty_name_dispatches_nothing :
  pending Delete (st unnamed_pending) = Some EmptyString /\
  dispatched Delete unnamed_pending = None /\
  calls unnamed_pending = [] /\
  calls (confirm Delete unnamed_pending) = [] /\
  isPending Delete (confirm Delete unnamed_pending) = false.
Proof. repeat split. Qed.

(** What [handleConfirmDelete] does with the selection.  The handler
    compares the deleted name with the selection of the render in which it
    was invoked, not with the selection at the settlement.  For every
    non-empty project name [p] pending for delete in [w], and whatever
    happens while the call is in flight: if the call succeeds and the
    selection was [p] when the confirm was invoked, the selection becomes
    none; if the selection was not [p] then, the settlement leaves the
    selection as it finds it; and on failure the settlement leaves the
    selection as it finds it. *)
Lemma delete_reconciles_selection (p : string) (w : World) (es : list Event) :
  Reachable w ->
  projectToDelete (st w) = Some p -> p <> EmptyString ->
  never_settles (next_id w) es = true ->
  (selectedProject (props w) = Some p ->
   selectedProject
     (props (settle (next_id w) Fulfilled (fire_all es (confirm Delete w))))
   = None) /\
  (selectedProject (props w) <> Some p ->
   forall o,
     selectedProject (props (settle (next_id w) o (fire_all es (confirm Delete w))))
     = selectedProject (props (fire_all es (confirm Delete w)))) /\
  (forall error,
     selectedProject
       (props (settle (next_id w) (Rejected error) (fire_all es (confirm Delete w))))
     = selectedProject (props (fire_all es (confirm Delete w)))).
Proof.
  intros Hw Hp Hne Hes.
  pose proof (confirm_then_settle Delete p w es Hw Hp Hne Hes) as Hs.
  repeat split.
  - intros Hsel. rewrite Hs. simpl.
    apply strict_eq_Some in Hsel. now rewrite Hsel.
  - intros Hsel o. rewrite Hs. destruct o; [|reflexivity]. simpl.
    destruct (strict_eq (selectedProject (props w)) (Some p)) eqn:E;
      [|reflexivity].
    apply strict_eq_Some in E. contradiction.
  - intros error. rewrite Hs. reflexivity.
Qed.

Lemma delete_reconciles_selection_witness :
  selectedProject
    (props (settle (next_id alpha_pending) Fulfilled
              (fire_all [ClickAction Detach 0] (confirm Delete alpha_pending))))
  = None /\
  selectedProject
    (props (settle (next_id alpha_pending) (Rejected "offline")
              (fire_all [ClickAction Detach 0] (confirm Delete alpha_pending))))
  = selectedProject
      (props (fire_all [ClickAction Detach 0] (confirm Delete alpha_pending))).
Proof.
  destruct (delete_reconciles_selection "alpha" alpha_pending
              [ClickAction Detach 0] alpha_pending_reachable eq_refl
              ltac:(discriminate) eq_refl) as (Hcleared & _ & Hkept).
  split; [apply Hcleared; reflexivity | apply Hkept].
Defined.

(** C2.  The code at two inputs where it misses the reconciliation the claim
    describes, because the selection changed while the delete call was in
    flight.  In [selected_in_flight] the call deletes [alpha], [alpha] is the
    selection when the call settles with success, and the settlement keeps
    it: the deleted project stays selected.  In [reselected_in_flight] the
    call deletes [alpha], the selection is [beta] when the call settles with
    success, and the settlement clears it although it is not the deleted
    project. *)
Lemma delete_reconciles_stale_selection :
  (option_map task_arg (find_task 0 (inflight reselected_in_flight)) = Some "alpha" /\
   selectedProject (props reselected_in_flight) = Some "beta" /\
   selectedProject (props (fire (Settle 0 Fulfilled) reselected_in_flight)) = None) /\
  (option_map task_arg (find_task 0 (inflight selected_in_flight)) = Some "alpha" /\
   selectedProject (props selected_in_flight) = Some "alpha" /\
   selectedProject (props (fire (Settle 0 Fulfilled) selected_in_flight))
   = Some "alpha").
Proof. repeat split. Qed.

(** ** The selection menu *)

(** C7, as the code has it.  For every project of the supplied list, at
    position [i]: its row can be chosen exactly while the menu is open, and
    choosing it sets the selection to the project's name and closes the menu.
    The loading flag reaches the trigger's button only, which is rendered
    disabled exactly while [isLoading] is true; the rows carry no loading
    guard, so whether a row can be chosen, and what choosing it does to the
    selection and the menu, does not depend on [isLoading]. *)
Theorem row_selection (w : World) (i : nat) (project : ProjectSummary)
    (loading : bool) :
  (nth_error (projects (props w)) i = Some project ->
   enabled (SelectRow i) w = isOpen (st w) /\
   selectedProject (props (handle (SelectRow i) w)) = Some (name project) /\
   isOpen (st (handle (SelectRow i) w)) = false) /\
  trigger_disabled (render w) = isLoading (props w) /\
  enabled (SelectRow i)
    (with_props (mkProps (projects (props w)) (selectedProject (props w)) loading) w)
  = enabled (SelectRow i) w /\
  selectedProject
    (props (handle (SelectRow i)
              (with_props (mkProps (projects (props w)) (selectedProject (props w))
                                   loading) w)))
  = selectedProject (props (handle (SelectRow i) w)) /\
  st (handle (SelectRow i)
        (with_props (mkProps (projects (props w)) (selectedProject (props w))
                             loading) w))
  = st (handle (SelectRow i) w).
Proof.
  split; [|split; [|split; [|split]]].
  - intros Hi. simpl. rewrite nth_error_map, Hi. simpl.
    split; [apply andb_true_r | split; reflexivity].
  - reflexivity.
  - reflexivity.
  - simpl. destruct (nth_error (projects (props w)) i); reflexivity.
  - simpl. destruct (nth_error (projects (props w)) i); reflexivity.
Qed.

Lemma row_selection_witness :
  enabled (SelectRow 1) alpha_pending = isOpen (st alpha_pending) /\
  selectedProject (props (handle (SelectRow 1) alpha_pending)) = Some (name beta) /\
  isOpen (st (handle (SelectRow 1) alpha_pending)) = false.
Proof.
  exact (proj1 (row_selection alpha_pending 1 beta true) eq_refl).
Defined.

(** C7 as stated fails: the menu is open when the list starts loading, and
    while [isLoading] is true the row of [beta] can be chosen and the choice
    changes the selection. *)
Lemma row_selectable_while_loading :
  isLoading (props loading_open) = true /\
  enabled (SelectRow 1) loading_open = true /\
  selectedProject (props loading_open) = Some "alpha" /\
  selectedProject (props (fire (SelectRow 1) loading_open)) = Some "beta".
Proof. repeat split. Qed.

(** ** The scenarios of the specification *)

(** One project, [alpha], which is selected.  The user clicks delete on
    [alpha] and confirms, and the call succeeds: nothing is selected, no
    delete is pending, and one delete call for [alpha] went out. *)
Example scenario_delete_selected :
  let w := fire_all [ClickTrigger; ClickAction Delete 0; DialogConfirm Delete;
                     Settle 0 Fulfilled]
                    (initialWorld (mkProps [alpha] (Some "alpha") false)) in
  selectedProject (props w) = None /\
  projectToDelete (st w) = None /\
  calls w = [(Delete, "alpha")] /\
  inflight w = [].
Proof. repeat split. Qed.

(** One project, [beta], which is detached.  The user clicks reattach and
    confirms, and the call fails: no reattach is pending, the selection is as
    before, and the failure is on the console. *)
Example scenario_reattach_fails :
  let w := fire_all [ClickTrigger; ClickAction Reattach 0; DialogConfirm Reattach;
                     Settle 0 (Rejected "no backup")]
                    (initialWorld (mkProps [beta] (Some "beta") false)) in
  projectToReattach (st w) = None /\
  selectedProject (props w) = Some "beta" /\
  console w = [("Failed to reattach project:", "no backup")] /\
  isPending Reattach w = false.
Proof. repeat split. Qed.

(** A row shows the reattach icon or the detach icon, never both: on the row
    of the detached [beta] a click on detach is not offered. *)
Example detach_not_offered_on_detached :
  enabled (ClickAction Detach 1) (fire ClickTrigger mounted) = false /\
  enabled (ClickAction Reattach 1) (fire ClickTrigger mounted) = true /\
  enabled (ClickAction Delete 1) (fire ClickTrigger mounted) = true.
Proof. repeat split. Qed.

(** * Further properties of the component *)

(** ** Settlement of any call in flight *)

(** X1. In every reachable world, the settlement of any call in flight of
    kind [k], whatever its outcome, clears the pending target of [k] and
    leaves the pending targets of the other kinds, the menu and the
    new-project modal as they are; it dispatches no call; and the call is no
    longer in flight, so it cannot settle a second time. *)
Theorem settlement_frame (w : World) (id : nat) (k : ActionKind) (o : Outcome) :
  Reachable w ->
  option_map task_kind (find_task id (inflight w)) = Some k ->
  pending k (st (settle id o w)) = None /\
  (forall k', k' <> k -> pending k' (st (settle id o w)) = pending k' (st w)) /\
  isOpen (st (settle id o w)) = isOpen (st w) /\
  showNewProjectModal (st (settle id o w)) = showNewProjectModal (st w) /\
  calls (settle id o w) = calls w /\
  inflight (settle id o w) = drop_task id (inflight w) /\
  enabled (Settle id o) (settle id o w) = false.
Proof.
  intros Hw Hk. destruct (settle_reachable w id k Hw Hk) as (clears & _ & Hs).
  rewrite (Hs o).
  assert (Hin : inflight
            (with_st (set_pending k None)
               match o with
               | Fulfilled => if clears then select None (without_task id w)
                              else without_task id w
               | Rejected error =>
                   logged (failure_message k) error (without_task id w)
               end) = drop_task id (inflight w)).
  { destruct o; [destruct clears|]; reflexivity. }
  repeat split.
  - simpl. apply pending_set_pending.
  - intros k' Hk'. simpl. rewrite pending_set_other by exact Hk'.
    destruct o; [destruct clears|]; reflexivity.
  - destruct o; [destruct clears|]; destruct k; reflexivity.
  - destruct o; [destruct clears|]; destruct k; reflexivity.
  - destruct o; [destruct clears|]; reflexivity.
  - exact Hin.
  - cbn [enabled]. rewrite Hin, find_task_dropped. reflexivity.
Qed.

Lemma settlement_frame_witness :
  pending Delete (st (settle 0 (Rejected "offline") reselected_in_flight)) = None /\
  (forall k', k' <> Delete ->
     pending k' (st (settle 0 (Rejected "offline") reselected_in_flight))
     = pending k' (st reselected_in_flight)) /\
  isOpen (st (settle 0 (Rejected "offline") reselected_in_flight))
  = isOpen (st reselected_in_flight) /\
  showNewProjectModal (st (settle 0 (Rejected "offline") reselected_in_flight))
  = showNewProjectModal (st reselected_in_flight) /\
  calls (settle 0 (Rejected "offline") reselected_in_flight)
  = calls reselected_in_flight /\
  inflight (settle 0 (Rejected "offline") reselected_in_flight)
  = drop_task 0 (inflight reselected_in_flight) /\
  enabled (Settle 0 (Rejected "offline"))
          (settle 0 (Rejected "offline") reselected_in_flight) = false.
Proof.
  apply (settlement_frame reselected_in_flight 0 Delete (Rejected "offline")).
  - exact reselected_in_flight_reachable.
  - reflexivity.
Defined.

(** X2. In every reachable world, the settlement of a call in flight changes
    the selection in one way only: a delete that succeeds may set it to none.
    A detach or a reattach never changes the selection, a failure of any kind
    never changes it, and no settlement selects a project or changes the list
    of projects or the loading flag. *)
Theorem settlement_selection (w : World) (id : nat) (k : ActionKind) :
  Reachable w ->
  option_map task_kind (find_task id (inflight w)) = Some k ->
  (k <> Delete ->
   forall o, selectedProject (props (settle id o w)) = selectedProject (props w)) /\
  (forall error,
     selectedProject (props (settle id (Rejected error) w))
     = selectedProject (props w)) /\
  (selectedProject (props (settle id Fulfilled w)) = selectedProject (props w) \/
   selectedProject (props (settle id Fulfilled w)) = None) /\
  (forall o, projects (props (settle id o w)) = projects (props w) /\
             isLoading (props (settle id o w)) = isLoading (props w)).
Proof.
  intros Hw Hk. destruct (settle_reachable w id k Hw Hk) as (clears & Hc & Hs).
  repeat split.
  - intros Hne o. rewrite (Hs o). destruct o; [|reflexivity].
    destruct clears; [|reflexivity]. now contradiction Hne; apply Hc.
  - intros error. rewrite (Hs (Rejected error)). reflexivity.
  - rewrite (Hs Fulfilled). destruct clears; [right | left]; reflexivity.
  - rewrite (Hs o). destruct o; [destruct clears|]; reflexivity.
  - rewrite (Hs o). destruct o; [destruct clears|]; reflexivity.
Qed.

Lemma settlement_selection_witness :
  (forall error,
     selectedProject (props (settle 0 (Rejected error) reselected_in_flight))
     = selectedProject (props reselected_in_flight)) /\
  (selectedProject (props (settle 0 Fulfilled reselected_in_flight))
   = selectedProject (props reselected_in_flight) \/
   selectedProject (props (settle 0 Fulfilled reselected_in_flight)) = None).
Proof.
  destruct (settlement_selection reselected_in_flight 0 Delete
              reselected_in_flight_reachable eq_refl) as (_ & H2 & H3 & _).
  split; [exact H2 | exact H3].
Defined.

(** X3. In every reachable world, a call in flight that settles with success
    writes nothing on the console, and one that fails writes exactly one line:
    the failure message of its kind with the error. *)
Theorem settlement_console (w : World) (id : nat) (k : ActionKind) :
  Reachable w ->
  option_map task_kind (find_task id (inflight w)) = Some k ->
  console (settle id Fulfilled w) = console w /\
  (forall error,
     console (settle id (Rejected error) w)
     = console w ++ [(failure_message k, error)]).
Proof.
  intros Hw Hk. destruct (settle_reachable w id k Hw Hk) as (clears & _ & Hs).
  split.
  - rewrite (Hs Fulfilled). destruct clears; reflexivity.
  - intros error. rewrite (Hs (Rejected error)). reflexivity.
Qed.

Lemma settlement_console_witness :
  console (settle 0 Fulfilled reselected_in_flight) = console reselected_in_flight /\
  (forall error,
     console (settle 0 (Rejected error) reselected_in_flight)
     = console reselected_in_flight ++ [(failure_message Delete, error)]).
Proof.
  apply (settlement_console reselected_in_flight 0 Delete).
  - exact reselected_in_flight_reachable.
  - reflexivity.
Defined.

(** ** What is never dispatched, and how often a call can fail *)

(** X4. In every reachable world, no mutation call was ever dispatched with
    the empty string as project name, and no call in flight has it. *)
Theorem calls_have_names (w : World) :
  Reachable w ->
  Forall (fun c => snd c <> EmptyString) (calls w) /\
  Forall (fun t => task_arg t <> EmptyString) (inflight w).
Proof.
  intros Hw. apply reachable_well_formed in Hw. destruct Hw as (Ht & Hc & _).
  split; [exact Hc|].
  eapply Forall_impl; [|exact Ht]. intros t Hct. apply Hct.
Qed.

Lemma calls_have_names_witness :
  Forall (fun c => snd c <> EmptyString) (calls reselected_in_flight) /\
  Forall (fun t => task_arg t <> EmptyString) (inflight reselected_in_flight).
Proof. apply (calls_have_names _ reselected_in_flight_reachable). Defined.

(** X5. In every reachable world, the failures logged on the console and the
    calls still in flight together are at most as many as the calls
    dispatched: each call is logged as failed at most once, and only after it
    has left flight. *)
Theorem failures_bounded (w : World) :
  Reachable w ->
  length (console w) + length (inflight w) <= length (calls w).
Proof.
  intros Hw. apply reachable_well_formed in Hw. apply Hw.
Qed.

Lemma failures_bounded_witness :
  length (console reselected_in_flight) + length (inflight reselected_in_flight)
  <= length (calls reselected_in_flight).
Proof. apply (failures_bounded _ reselected_in_flight_reachable). Defined.

(** ** The confirm operation before settlement *)

Lemma confirm_keeps_state (k : ActionKind) (w : World) :
  st (confirm k w) = st w /\ props (confirm k w) = props w /\
  console (confirm k w) = console w.
Proof.
  destruct (confirm_cases k w) as [-> | (p & t & _ & _ & _ & _ & _ & ->)];
    repeat split.
Qed.

(** X6. For every kind [k] and every non-empty pending target [p]: the
    confirm operation changes neither the component's state nor the props.
    The target stays pending while the call is in flight, so the dialog of
    [k] stays open, and it is rendered as loading. *)
Theorem confirm_keeps_dialog_open (k : ActionKind) (p : string) (w : World) :
  pending k (st w) = Some p -> p <> EmptyString ->
  st (confirm k w) = st w /\
  props (confirm k w) = props w /\
  pending k (st (confirm k w)) = Some p /\
  dlg_isOpen (dialog (render (confirm k w)) k) = true /\
  dlg_isLoading (dialog (render (confirm k w)) k) = true.
Proof.
  intros Hp Hne.
  destruct (confirm_keeps_state k w) as (Hst & Hprops & _).
  destruct (confirm_dispatch k w p Hp Hne) as (t & _ & _ & Hk & _ & Hc & _).
  repeat split; auto.
  - now rewrite Hst.
  - apply dialog_isOpen_spec. rewrite Hst, Hp. discriminate.
  - assert (Hpend : isPending k (confirm k w) = true).
    { rewrite Hc. unfold isPending. simpl. rewrite existsb_app. simpl.
      rewrite Hk, kind_eqb_refl. apply orb_true_r. }
    destruct k; exact Hpend.
Qed.

Lemma confirm_keeps_dialog_open_witness :
  st (confirm Delete alpha_pending) = st alpha_pending /\
  props (confirm Delete alpha_pending) = props alpha_pending /\
  pending Delete (st (confirm Delete alpha_pending)) = Some "alpha" /\
  dlg_isOpen (dialog (render (confirm Delete alpha_pending)) Delete) = true /\
  dlg_isLoading (dialog (render (confirm Delete alpha_pending)) Delete) = true.
Proof.
  apply (confirm_keeps_dialog_open Delete "alpha" alpha_pending).
  - reflexivity.
  - discriminate.
Defined.

(** X7. The confirm handlers do not remember that a call is in flight: for
    every kind [k] and every non-empty pending target [p], a second confirm
    operation before the settlement dispatches a second call for [(k, p)], and
    both calls are in flight. *)
Theorem confirm_twice_dispatches_twice (k : ActionKind) (p : string) (w : World) :
  pending k (st w) = Some p -> p <> EmptyString ->
  calls (confirm k (confirm k w)) = calls w ++ [(k, p); (k, p)] /\
  length (inflight (confirm k (confirm k w))) = length (inflight w) + 2 /\
  map task_arg (inflight (confirm k (confirm k w)))
  = map task_arg (inflight w) ++ [p; p].
Proof.
  intros Hp Hne.
  destruct (confirm_dispatch k w p Hp Hne) as (t1 & _ & _ & _ & Ha1 & Hc1 & _).
  assert (Hp' : pending k (st (confirm k w)) = Some p).
  { now rewrite (proj1 (confirm_keeps_state k w)). }
  destruct (confirm_dispatch k (confirm k w) p Hp' Hne)
    as (t2 & _ & _ & _ & Ha2 & Hc2 & _).
  rewrite Hc2, Hc1. simpl. rewrite <- !app_assoc. simpl.
  repeat split.
  - rewrite !length_app. simpl. lia.
  - rewrite !map_app. simpl. now rewrite Ha1, Ha2.
Qed.

Lemma confirm_twice_dispatches_twice_witness :
  calls (confirm Delete (confirm Delete alpha_pending))
  = calls alpha_pending ++ [(Delete, "alpha"); (Delete, "alpha")] /\
  length (inflight (confirm Delete (confirm Delete alpha_pending)))
  = length (inflight alpha_pending) + 2 /\
  map task_arg (inflight (confirm Delete (confirm Delete alpha_pending)))
  = map task_arg (inflight alpha_pending) ++ ["alpha"; "alpha"].
Proof.
  apply (confirm_twice_dispatches_twice Delete "alpha" alpha_pending).
  - reflexivity.
  - discriminate.
Defined.

(** X8. Cancelling does not abort a call.  For every kind [k] and every
    non-empty pending target [p] in a reachable world: after confirm and then
    cancel, no target is pending for [k], and yet the one call is still in
    flight and can settle; a delete that then succeeds still clears the
    selection if the selection was [p] when the confirm was invoked. *)
Theorem cancel_does_not_abort (k : ActionKind) (p : string) (w : World) :
  Reachable w ->
  pending k (st w) = Some p -> p <> EmptyString ->
  pending k (st (fire (DialogCancel k) (confirm k w))) = None /\
  isPending k (fire (DialogCancel k) (confirm k w)) = true /\
  calls (fire (DialogCancel k) (confirm k w)) = calls w ++ [(k, p)] /\
  enabled (Settle (next_id w) Fulfilled) (fire (DialogCancel k) (confirm k w))
  = true /\
  (k = Delete -> selectedProject (props w) = Some p ->
   selectedProject
     (props (settle (next_id w) Fulfilled (fire (DialogCancel k) (confirm k w))))
   = None).
Proof.
  intros Hw Hp Hne.
  assert (Hes : never_settles (next_id w) [DialogCancel k] = true) by reflexivity.
  destruct (confirm_in_flight k p w [DialogCancel k] Hw Hp Hne Hes)
    as (t & _ & _ & Hk & Hf).
  pose proof (confirm_then_settle k p w [DialogCancel k] Hw Hp Hne Hes Fulfilled)
    as Hs.
  simpl fire_all in Hf, Hs.
  assert (Hfire : fire (DialogCancel k) (confirm k w) = cancel k (confirm k w)).
  { unfold fire.
    replace (enabled (DialogCancel k) (confirm k w)) with true; [reflexivity|].
    symmetry. apply dialog_isOpen_spec.
    rewrite (proj1 (confirm_keeps_state k w)), Hp. discriminate. }
  repeat split.
  - rewrite Hfire, cancel_eq. simpl. apply pending_set_pending.
  - pose proof (find_task_isPending _ _ _ Hf) as Hpend. now rewrite Hk in Hpend.
  - rewrite Hfire, cancel_eq. simpl.
    destruct (confirm_dispatch k w p Hp Hne) as (t1 & _ & _ & _ & _ & Hc & _).
    now rewrite Hc.
  - cbn [enabled]. now rewrite Hf.
  - intros -> Hsel. rewrite Hs. simpl.
    apply strict_eq_Some in Hsel. now rewrite Hsel.
Qed.

Lemma cancel_does_not_abort_witness :
  pending Delete (st (fire (DialogCancel Delete) (confirm Delete alpha_pending)))
  = None /\
  isPending Delete (fire (DialogCancel Delete) (confirm Delete alpha_pending))
  = true /\
  selectedProject
    (props (settle (next_id alpha_pending) Fulfilled
              (fire (DialogCancel Delete) (confirm Delete alpha_pending))))
  = None.
Proof.
  destruct (cancel_does_not_abort Delete "alpha" alpha_pending
              alpha_pending_reachable eq_refl ltac:(discriminate))
    as (H1 & H2 & _ & _ & H5).
  split; [exact H1 | split; [exact H2 | apply H5; reflexivity]].
Defined.

(** X9. For every kind [k]: with the empty string as pending target the
    dialog of [k] is open and its confirm button is offered, but the confirm
    operation returns at its guard and changes nothing, so confirming never
    closes that dialog; cancelling does. *)
Theorem confirm_empty_name_is_stuck (k : ActionKind) (w : World) :
  pending k (st w) = Some EmptyString ->
  enabled (DialogConfirm k) w = true /\
  fire (DialogConfirm k) w = w /\
  enabled (DialogCancel k) w = true /\
  pending k (st (fire (DialogCancel k) w)) = None.
Proof.
  intros Hp.
  assert (Hopen : dlg_isOpen (dialog (render w) k) = true).
  { apply dialog_isOpen_spec. rewrite Hp. discriminate. }
  repeat split.
  - exact Hopen.
  - unfold fire. cbn [enabled]. rewrite Hopen. simpl.
    rewrite handleConfirm_falsy; [reflexivity | now rewrite Hp].
  - exact Hopen.
  - unfold fire. cbn [enabled]. rewrite Hopen. simpl.
    fold (cancel k w). rewrite cancel_eq. simpl. apply pending_set_pending.
Qed.

Lemma confirm_empty_name_is_stuck_witness :
  enabled (DialogConfirm Delete) unnamed_pending = true /\
  fire (DialogConfirm Delete) unnamed_pending = unnamed_pending /\
  enabled (DialogCancel Delete) unnamed_pending = true /\
  pending Delete (st (fire (DialogCancel Delete) unnamed_pending)) = None.
Proof. apply (confirm_empty_name_is_stuck Delete unnamed_pending). reflexivity. Defined.

(** ** What the handlers never touch *)

Lemma action_click_state (k : ActionKind) (project : ProjectSummary) (w : World) :
  clickActionButton k project w
  = with_st (set_pending k (Some (name project))) w /\
  propagationStopped
    (fst (run (handleClick k (name project)) newMouseEvent w)) = true.
Proof. destruct k; split; reflexivity. Qed.


(** X11. Only three things change the selection: choosing a row, the
    completion of the creation wizard, and the settlement of a call.  The
    trigger, the action icons, the New Project item, the modal's close and
    step notifications, and the confirm and cancel buttons of the dialogs
    leave all the props as they are. *)
Theorem selection_changes_only_by_select (e : Event) (w : World) :
  may_select e = false ->
  props (handle e w) = props w.
Proof.
  intros He. destruct e; try discriminate He; simpl handle.
  - reflexivity.
  - destruct (nth_error (projects (props w)) i); [destruct k|]; reflexivity.
  - reflexivity.
  - reflexivity.
  - reflexivity.
  - apply (confirm_keeps_state k w).
  - destruct k; reflexivity.
Qed.

Lemma selection_changes_only_by_select_witness :
  props (handle (DialogConfirm Delete) alpha_pending) = props alpha_pending.
Proof.
  apply (selection_changes_only_by_select (DialogConfirm Delete) alpha_pending).
  reflexivity.
Defined.

(** X12. The three confirmation flows are independent: the action click, the
    cancel and the confirm of kind [k] leave the pending target of every
    other kind as it is. *)
Theorem flows_are_independent (k k' : ActionKind) (i : nat) (w : World) :
  k' <> k ->
  pending k' (st (handle (ClickAction k i) w)) = pending k' (st w) /\
  pending k' (st (handle (DialogCancel k) w)) = pending k' (st w) /\
  pending k' (st (handle (DialogConfirm k) w)) = pending k' (st w).
Proof.
  intros Hk. repeat split.
  - simpl. destruct (nth_error (projects (props w)) i) as [project|];
      [|reflexivity].
    destruct (action_click_state k project w) as [-> _].
    simpl. now apply pending_set_other.
  - simpl. fold (cancel k w). rewrite cancel_eq. simpl.
    now apply pending_set_other.
  - simpl. fold (confirm k w). now rewrite (proj1 (confirm_keeps_state k w)).
Qed.

Lemma flows_are_independent_witness :
  pending Delete (st (handle (ClickAction Detach 0) alpha_pending))
  = pending Delete (st alpha_pending) /\
  pending Delete (st (handle (DialogCancel Detach) alpha_pending))
  = pending Delete (st alpha_pending) /\
  pending Delete (st (handle (DialogConfirm Detach) alpha_pending))
  = pending Delete (st alpha_pending).
Proof.
  apply (flows_are_independent Detach Delete 0 alpha_pending). discriminate.
Defined.

(** ** The rendered menu *)

Lemma strict_eq_name (n : string) (v : Nullable) :
  strict_eq (Some n) v = true <-> v = Some n.
Proof.
  destruct v as [q|]; simpl; [|split; discriminate].
  destruct (String.eqb_spec n q); split; congruence.
Qed.

(** X13. An action icon can be clicked exactly when the menu is open and the
    row exists; delete is on every row, detach only on the row of a project
    that is not detached, and reattach only on the row of a detached one.  So
    no row offers both detach and reattach. *)
Theorem action_icons_offered (k : ActionKind) (i : nat) (w : World) :
  enabled (ClickAction k i) w = true <->
  isOpen (st w) = true /\
  exists project,
    nth_error (projects (props w)) i = Some project /\ offered k project.
Proof.
  cbn [enabled]. simpl. rewrite nth_error_map.
  destruct (isOpen (st w)); simpl.
  - destruct (nth_error (projects (props w)) i) as [project|]; simpl.
    + unfold has_button, offered. simpl.
      split.
      * intros H. split; [reflexivity|]. exists project. split; [reflexivity|].
        destruct k, (is_detached project); simpl in *;
          try exact I; try reflexivity; discriminate H.
      * intros (_ & project' & Hp & Hoff). injection Hp as <-.
        destruct k, (is_detached project); simpl in *;
          try reflexivity; discriminate Hoff.
    + split; [discriminate|]. intros (_ & project & Hp & _). discriminate Hp.
  - split; [discriminate|]. intros (H & _). discriminate H.
Qed.

Lemma selected_project_lookup_none (P : Props) :
  (forall d, In d (projects P) -> selectedProject P <> Some (name d)) ->
  selectedProjectData P = None.
Proof.
  intros H. unfold selectedProjectData.
  destruct (find _ (projects P)) as [d|] eqn:Hf; [|reflexivity].
  apply find_some in Hf. destruct Hf as [Hd Hsel].
  apply strict_eq_name in Hsel. now contradiction (H d Hd).
Qed.

(** X14. The project looked up for the trigger is a project of the list that
    bears the selected name, and the lookup fails exactly when no project of
    the list bears it; in particular it fails when nothing is selected. *)
Theorem selected_project_lookup (P : Props) :
  (forall d, selectedProjectData P = Some d ->
             In d (projects P) /\ selectedProject P = Some (name d)) /\
  (selectedProjectData P = None <->
   forall d, In d (projects P) -> selectedProject P <> Some (name d)) /\
  (selectedProject P = None -> selectedProjectData P = None).
Proof.
  assert (Hnone : selectedProjectData P = None <->
                  forall d, In d (projects P) -> selectedProject P <> Some (name d)).
  { unfold selectedProjectData. split.
    - intros H d Hd Hsel.
      pose proof (find_none _ _ H d Hd) as Hf. cbv beta in Hf.
      apply (proj2 (strict_eq_name (name d) (selectedProject P))) in Hsel.
      rewrite Hsel in Hf. discriminate Hf.
    - intros H. destruct (find _ (projects P)) as [d|] eqn:Hf; [|reflexivity].
      apply find_some in Hf. destruct Hf as [Hd Hsel].
      apply strict_eq_name in Hsel. now contradiction (H d Hd). }
  repeat split.
  - unfold selectedProjectData in H. now apply find_some in H.
  - unfold selectedProjectData in H. apply find_some in H.
    now apply strict_eq_name.
  - apply Hnone.
  - apply Hnone.
  - intros Hsel. apply Hnone. intros d _. rewrite Hsel. discriminate.
Qed.

(** X15. A selection that names no project of the list is still shown: when
    the list is not loading and the selected name is non-empty but borne by
    no project, the trigger shows that name with no badge and no title, and
    no row is highlighted. *)
Theorem stale_selection_is_shown (n : string) (w : World) :
  selectedProject (props w) = Some n -> n <> EmptyString ->
  isLoading (props w) = false ->
  (forall d, In d (projects (props w)) -> name d <> n) ->
  trigger_label (render w) = SelectedLabel n None /\
  trigger_title (render w) = None /\
  Forall (fun r => row_highlighted r = false) (rows (render w)).
Proof.
  intros Hsel Hne Hl Hnot.
  assert (Hd : selectedProjectData (props w) = None).
  { apply (selected_project_lookup_none (props w)).
    intros d Hin E. rewrite Hsel in E. injection E as E.
    now apply (Hnot d Hin). }
  repeat split.
  - simpl. rewrite Hl, Hsel, Hd. simpl.
    destruct (String.eqb_spec n EmptyString); [contradiction | reflexivity].
  - simpl. now rewrite Hd.
  - simpl. apply Forall_forall. intros r Hr. apply in_map_iff in Hr.
    destruct Hr as (d & <- & Hin). simpl. rewrite Hsel. simpl.
    destruct (String.eqb_spec (name d) n) as [E|E]; [|reflexivity].
    now contradiction (Hnot d Hin).
Qed.

Lemma stale_selection_is_shown_witness :
  trigger_label (render (initialWorld (mkProps [alpha; beta] (Some "gamma") false)))
  = SelectedLabel "gamma" None /\
  trigger_title (render (initialWorld (mkProps [alpha; beta] (Some "gamma") false)))
  = None /\
  Forall (fun r => row_highlighted r = false)
         (rows (render (initialWorld (mkProps [alpha; beta] (Some "gamma") false)))).
Proof.
  apply (stale_selection_is_shown "gamma"
           (initialWorld (mkProps [alpha; beta] (Some "gamma") false))).
  - reflexivity.
  - discriminate.
  - reflexivity.
  - intros d [<- | [<- | []]]; discriminate.
Defined.

(** X16. The rows follow the list: one row per project, in the order of the
    list, keyed by the project's name.  A row is highlighted exactly when its
    name is the selection.  The row of a detached project shows the badge and
    the reattach icon and never the progress count; the row of any other
    project shows the detach icon, and the progress count exactly when the
    project has features. *)
Theorem rows_follow_projects (w : World) :
  map row_key (rows (render w)) = map name (projects (props w)) /\
  (forall i project,
     nth_error (projects (props w)) i = Some project ->
     exists r,
       nth_error (rows (render w)) i = Some r /\
       row_key r = name project /\
       (row_highlighted r = true <-> selectedProject (props w) = Some (name project)) /\
       (is_detached project = true ->
        row_detachedBadge r = true /\ row_toggle r = Reattach /\
        row_progress r = None) /\
       (is_detached project = false ->
        row_detachedBadge r = false /\ row_toggle r = Detach /\
        (row_progress r <> None <-> (0 < total (stats project))%Z))).
Proof.
  split.
  - simpl. rewrite map_map. reflexivity.
  - intros i project Hi. exists (renderRow (props w) project).
    split; [simpl; rewrite nth_error_map, Hi; reflexivity|].
    split; [reflexivity|].
    split; [apply strict_eq_name|].
    unfold renderRow; simpl. split; intros ->; simpl.
    + repeat split.
    + repeat split.
      * destruct (Z.ltb_spec 0 (total (stats project))); [lia | congruence].
      * intros H. destruct (Z.ltb_spec 0 (total (stats project)));
          [discriminate | lia].
Qed.

Lemma rows_follow_projects_witness :
  map row_key (rows (render mounted)) = map name (projects (props mounted)) /\
  exists r,
    nth_error (rows (render mounted)) 1 = Some r /\
    row_key r = "beta" /\
    row_detachedBadge r = true /\ row_toggle r = Reattach /\ row_progress r = None.
Proof.
  destruct (rows_follow_projects mounted) as [Hkeys Hrow].
  split; [exact Hkeys|].
  destruct (Hrow 1 beta eq_refl) as (r & Hr & Hkey & _ & Hdet & _).
  exists r. destruct (Hdet eq_refl) as (Hb & Ht & Hp). now repeat split.
Defined.

Lemma nothing_selected_view (w : World) :
  selectedProject (props w) = None ->
  trigger_title (render w) = None /\
  trigger_label (render w)
  = (if isLoading (props w) then Spinner else Placeholder) /\
  Forall (fun r => row_highlighted r = false) (rows (render w)).
Proof.
  intros Hsel.
  assert (Hd : selectedProjectData (props w) = None).
  { apply selected_project_lookup_none. intros d _. rewrite Hsel. discriminate. }
  repeat split.
  - simpl. now rewrite Hd.
  - simpl. rewrite Hsel. reflexivity.
  - simpl. apply Forall_forall. intros r Hr. apply in_map_iff in Hr.
    destruct Hr as (d & <- & _). simpl. now rewrite Hsel.
Qed.

(** X17. After the selected project is deleted the trigger does not show its
    name any more.  If [p] was selected when the delete of [p] was confirmed
    and the call succeeds, then, whatever happened while the call was in
    flight, the view after the settlement has no title on the trigger, shows
    the spinner while the list is loading and the placeholder otherwise, and
    highlights no row. *)
Theorem deleted_selection_shows_placeholder (p : string) (w : World)
    (es : list Event) :
  Reachable w ->
  projectToDelete (st w) = Some p -> p <> EmptyString ->
  never_settles (next_id w) es = true ->
  selectedProject (props w) = Some p ->
  trigger_title
    (render (settle (next_id w) Fulfilled (fire_all es (confirm Delete w))))
  = None /\
  trigger_label
    (render (settle (next_id w) Fulfilled (fire_all es (confirm Delete w))))
  = (if isLoading (props (fire_all es (confirm Delete w)))
     then Spinner else Placeholder) /\
  Forall (fun r => row_highlighted r = false)
    (rows (render (settle (next_id w) Fulfilled (fire_all es (confirm Delete w))))).
Proof.
  intros Hw Hp Hne Hes Hsel.
  pose proof (confirm_then_settle Delete p w es Hw Hp Hne Hes Fulfilled) as Hs.
  apply strict_eq_Some in Hsel. simpl in Hs. rewrite Hsel in Hs.
  assert (Hnone : selectedProject
            (props (settle (next_id w) Fulfilled (fire_all es (confirm Delete w))))
          = None) by now rewrite Hs.
  assert (Hload : isLoading
            (props (settle (next_id w) Fulfilled (fire_all es (confirm Delete w))))
          = isLoading (props (fire_all es (confirm Delete w)))) by now rewrite Hs.
  rewrite <- Hload. now apply nothing_selected_view.
Qed.

Lemma deleted_selection_shows_placeholder_witness :
  trigger_title
    (render (settle (next_id alpha_pending) Fulfilled
               (fire_all [DialogCancel Delete] (confirm Delete alpha_pending))))
  = None /\
  trigger_label
    (render (settle (next_id alpha_pending) Fulfilled
               (fire_all [DialogCancel Delete] (confirm Delete alpha_pending))))
  = (if isLoading
          (props (fire_all [DialogCancel Delete] (confirm Delete alpha_pending)))
     then Spinner else Placeholder) /\
  Forall (fun r => row_highlighted r = false)
    (rows (render (settle (next_id alpha_pending) Fulfilled
                     (fire_all [DialogCancel Delete]
                               (confirm Delete alpha_pending))))).
Proof.
  apply (deleted_selection_shows_placeholder "alpha" alpha_pending
           [DialogCancel Delete]).
  - exact alpha_pending_reachable.
  - reflexivity.
  - discriminate.
  - reflexivity.
  - reflexivity.
Defined.

(** ** The new-project modal *)

(** X18. The New Project item opens the modal and closes the menu without
    touching the props.  When the wizard then yields the name [n], the
    project is selected but the modal is not closed by the component: it
    stays open until the modal calls [onClose].  Through all three steps the
    pending targets are as they were and no mutation call is dispatched. *)
Theorem new_project_flow (n : string) (w : World) :
  showNewProjectModal (st (handle SelectNewProject w)) = true /\
  isOpen (st (handle SelectNewProject w)) = false /\
  props (handle SelectNewProject w) = props w /\
  enabled (ModalProjectCreated n) (handle SelectNewProject w) = true /\
  selectedProject
    (props (handle (ModalProjectCreated n) (handle SelectNewProject w))) = Some n /\
  showNewProjectModal
    (st (handle (ModalProjectCreated n) (handle SelectNewProject w))) = true /\
  enabled ModalClose (handle (ModalProjectCreated n) (handle SelectNewProject w))
  = true /\
  showNewProjectModal
    (st (handle ModalClose
           (handle (ModalProjectCreated n) (handle SelectNewProject w)))) = false /\
  (forall k,
     pending k (st (handle ModalClose
                      (handle (ModalProjectCreated n) (handle SelectNewProject w))))
     = pending k (st w)) /\
  calls (handle ModalClose
           (handle (ModalProjectCreated n) (handle SelectNewProject w)))
  = calls w.
Proof. repeat split. Qed.

(** ** A target opened while a call is in flight *)

(** X19. The settlement clears whatever target is pending for its kind, not
    only its own.  If, while the call for [p] of kind [k] is in flight, the
    user clicks the icon of kind [k] on another row, that row's project
    becomes the pending target; when the call for [p] settles, with any
    outcome, the newer target is dropped too, and no call was dispatched for
    it. *)
Theorem settlement_drops_newer_target (k : ActionKind) (p : string) (w : World)
    (i : nat) (project : ProjectSummary) (o : Outcome) :
  Reachable w ->
  pending k (st w) = Some p -> p <> EmptyString ->
  nth_error (projects (props w)) i = Some project ->
  enabled (ClickAction k i) w = true ->
  pending k (st (fire (ClickAction k i) (confirm k w))) = Some (name project) /\
  pending k (st (settle (next_id w) o (fire (ClickAction k i) (confirm k w))))
  = None /\
  calls (settle (next_id w) o (fire (ClickAction k i) (confirm k w)))
  = calls w ++ [(k, p)].
Proof.
  intros Hw Hp Hne Hi Hen.
  assert (Hes : never_settles (next_id w) [ClickAction k i] = true) by reflexivity.
  pose proof (confirm_then_settle k p w [ClickAction k i] Hw Hp Hne Hes o) as Hs.
  simpl fire_all in Hs.
  destruct (confirm_keeps_state k w) as (Hst & Hprops & _).
  destruct (confirm_dispatch k w p Hp Hne) as (t & _ & _ & _ & _ & Hc & _).
  assert (Hfire : fire (ClickAction k i) (confirm k w)
                  = with_st (set_pending k (Some (name project))) (confirm k w)).
  { unfold fire.
    replace (enabled (ClickAction k i) (confirm k w)) with true.
    - simpl handle. rewrite Hprops, Hi. apply action_click_state.
    - rewrite <- Hen. cbn [enabled]. simpl. now rewrite Hst, Hprops. }
  repeat split.
  - rewrite Hfire. simpl. apply pending_set_pending.
  - rewrite Hs. simpl. apply pending_set_pending.
  - rewrite Hs, Hfire, Hc.
    destruct o; simpl;
      [destruct (kind_eqb k Delete && strict_eq (selectedProject (props w)) (Some p))|];
      reflexivity.
Qed.

Lemma settlement_drops_newer_target_witness :
  pending Delete (st (fire (ClickAction Delete 1) (confirm Delete alpha_pending)))
  = Some (name beta) /\
  pending Delete
    (st (settle (next_id alpha_pending) Fulfilled
           (fire (ClickAction Delete 1) (confirm Delete alpha_pending))))
  = None /\
  calls (settle (next_id alpha_pending) Fulfilled
           (fire (ClickAction Delete 1) (confirm Delete alpha_pending)))
  = calls alpha_pending ++ [(Delete, "alpha")].
Proof.
  apply (settlement_drops_newer_target Delete "alpha" alpha_pending 1 beta Fulfilled).
  - exact alpha_pending_reachable.
  - reflexivity.
  - discriminate.
  - reflexivity.
  - reflexivity.
Defined.
